(** * Spreadsheet import pipeline of [app.py]

    A shallow embedding of the three core steps of [app.py] -- the column
    analyzer ([infer_data_type] and the name cleaning of [upload]), the
    schema builder ([create_db]) and the row loader ([insert_data]) --
    together with the parts of the Python runtime, pandas and sqlite3 whose
    behaviour those steps rely on. *)

From Stdlib Require Import ZArith Bool List Ascii String Lia.
From stdpp Require Import base option list strings gmap.

Local Open Scope Z_scope.

(** ** The Python runtime *)

Module Py.

(** Exceptions raised by the builtins that the handlers call.  Only the
    class of an exception matters to an [except] clause. *)
Inductive exn :=
| ValueError
| TypeError
| OverflowError
| IndexError
| KeyError
| IOError
| OperationalError.

(** [OverflowError] derives from [ArithmeticError], not from [ValueError]
    or [TypeError]; all of them derive from [Exception]. *)
Definition is_value_or_type_error (e : exn) : bool :=
  match e with
  | ValueError | TypeError => true
  | _ => false
  end.

(** Evaluation of an expression: a value, or a raised exception. *)
Inductive res (A : Type) :=
| Ok (a : A)
| Raise (e : exn).
Arguments Ok {A} a.
Arguments Raise {A} e.

Definition bind {A B} (m : res A) (k : A -> res B) : res B :=
  match m with
  | Ok a => k a
  | Raise e => Raise e
  end.

(** [try: m except (ValueError, TypeError): h] *)
Definition try_except_value_type {A} (m : res A) (h : res A) : res A :=
  match m with
  | Ok a => Ok a
  | Raise e => if is_value_or_type_error e then h else Raise e
  end.

(** *** Binary64 values

    A Python [float] (and a numpy [float64]) is an IEEE-754 binary64.  A
    finite non-zero value is kept as [(-1)^neg * m * 2^e] with [m] odd, so
    that equal values have equal representations. *)
Inductive float64 :=
| FNaN
| FInf (neg : bool)
| FZero (neg : bool)
| FFin (neg : bool) (m : positive) (e : Z).

Definition is_odd (p : positive) : bool :=
  match p with
  | xO _ => false
  | _ => true
  end.

(** The values a binary64 can hold: 53 significant bits, least exponent
    [-1074], magnitude below [2^1024]. *)
Definition valid_float (f : float64) : bool :=
  match f with
  | FFin _ m e =>
      is_odd m && (Z.pos (Pos.size m) <=? 53) && (-1074 <=? e)
      && (Z.pos (Pos.size m) + e <=? 1024)
  | _ => true
  end.

Definition is_nan (f : float64) : bool :=
  match f with FNaN => true | _ => false end.

Definition is_inf (f : float64) : bool :=
  match f with FInf _ => true | _ => false end.

Definition is_finite (f : float64) : bool :=
  match f with FZero _ | FFin _ _ _ => true | _ => false end.

(** IEEE equality: NaN differs from everything, the two zeros are equal. *)
Definition float_eqb (x y : float64) : bool :=
  match x, y with
  | FZero _, FZero _ => true
  | FInf a, FInf b => Bool.eqb a b
  | FFin a m e, FFin b n k => Bool.eqb a b && (m =? n)%positive && (e =? k)
  | _, _ => false
  end.

(** [odd_part p = (m, k)] with [p = m * 2^k] and [m] odd. *)
Fixpoint odd_part (p : positive) : positive * Z :=
  match p with
  | xO q => let '(m, k) := odd_part q in (m, k + 1)
  | _ => (p, 0)
  end.

(** The binary64 of value [(-1)^neg * q * 2^e] when [q] has at most 53
    bits; infinity when the magnitude reaches [2^1024]. *)
Definition normalize (neg : bool) (q : Z) (e : Z) : float64 :=
  match q with
  | Z0 => FZero neg
  | Zpos p =>
      let '(m, k) := odd_part p in
      if Z.pos (Pos.size m) + (e + k) >? 1024 then FInf neg
      else FFin neg m (e + k)
  | Zneg _ => FNaN
  end.

(** Round [(-1)^neg * (n + t) * 2^e] to the nearest binary64, ties to
    even, where [0 < t < 1] when [sticky] is set and [t = 0] otherwise.
    [s] is the number of low bits of [n] that do not fit. *)
Definition round_pos (neg : bool) (n : positive) (e : Z) (sticky : bool)
  : float64 :=
  let s := Z.max (Z.pos (Pos.size n) - 53) (-1074 - e) in
  if s <=? 0 then normalize neg (Z.pos n) e
  else
    let q := Z.shiftr (Z.pos n) s in
    let r := Z.pos n - Z.shiftl q s in
    let half := Z.shiftl 1 (s - 1) in
    let up := (half <? r) || ((half =? r) && (sticky || Z.odd q)) in
    normalize neg (if up then q + 1 else q) (e + s).

(** Conversion of an integer to the nearest binary64. *)
Definition float_of_Z (z : Z) : float64 :=
  match z with
  | Z0 => FZero false
  | Zpos p => round_pos false p 0 false
  | Zneg p => round_pos true p 0 false
  end.

(** Truncation toward zero of a finite value. *)
Definition trunc (f : float64) : Z :=
  match f with
  | FFin neg m e =>
      let a := Z.shiftl (Z.pos m) e in if neg then - a else a
  | _ => 0
  end.

(** [int(x)] for a float [x]. *)
Definition int_of_float (f : float64) : res Z :=
  match f with
  | FNaN => Raise ValueError
  | FInf _ => Raise OverflowError
  | _ => Ok (trunc f)
  end.

(** [float(n)] for an int [n]: integers too large for a binary64 raise. *)
Definition float_of_int (z : Z) : res float64 :=
  let f := float_of_Z z in
  if is_inf f then Raise OverflowError else Ok f.

(** *** Reading a float from text: [float(s)] for a [str]

    The literal grammar of the language reference: optional sign, then
    [inf], [infinity] or [nan] in any letter case, or decimal digits with an
    optional fraction and exponent; single underscores may separate digits;
    surrounding whitespace is ignored.  Names are UTF-8 byte strings and the
    grammar below reads the ASCII forms. *)

Definition digit_of (c : ascii) : option Z :=
  let n := Z.of_N (N_of_ascii c) in
  if (48 <=? n) && (n <=? 57) then Some (n - 48) else None.

Definition is_space (c : ascii) : bool :=
  let n := Z.of_N (N_of_ascii c) in
  (n =? 32) || ((9 <=? n) && (n <=? 13)).

Definition is_char (n : Z) (c : ascii) : bool :=
  Z.of_N (N_of_ascii c) =? n.

Definition lower (c : ascii) : ascii :=
  let n := N_of_ascii c in
  if ((65 <=? n) && (n <=? 90))%N then ascii_of_N (n + 32) else c.

(** Digits following a first digit; [acc] is the number read so far and
    [cnt] how many digits it has. *)
Fixpoint digit_run (underscores : bool) (acc cnt : Z) (l : list ascii)
  : Z * Z * list ascii :=
  match l with
  | c :: l' =>
      match digit_of c with
      | Some d => digit_run underscores (10 * acc + d) (cnt + 1) l'
      | None =>
          match l' with
          | c2 :: l'' =>
              match digit_of c2 with
              | Some d =>
                  if underscores && is_char 95 c
                  then digit_run underscores (10 * acc + d) (cnt + 1) l''
                  else (acc, cnt, l)
              | None => (acc, cnt, l)
              end
          | [] => (acc, cnt, l)
          end
      end
  | [] => (acc, cnt, l)
  end.

Definition digitpart (underscores : bool) (acc : Z) (l : list ascii)
  : option (Z * Z * list ascii) :=
  match l with
  | c :: l' =>
      match digit_of c with
      | Some d => Some (digit_run underscores (10 * acc + d) 1 l')
      | None => None
      end
  | [] => None
  end.

(** [number]: all digits as one integer, the count of fraction digits,
    and the unread input. *)
Definition number (underscores : bool) (l : list ascii)
  : option (Z * Z * list ascii) :=
  match digitpart underscores 0 l with
  | Some (d, _, rest) =>
      match rest with
      | c :: rest' =>
          if is_char 46 c then
            match digitpart underscores d rest' with
            | Some r => Some r
            | None => Some (d, 0, rest')
            end
          else Some (d, 0, rest)
      | [] => Some (d, 0, rest)
      end
  | None =>
      match l with
      | c :: rest' =>
          if is_char 46 c then digitpart underscores 0 rest' else None
      | [] => None
      end
  end.

Definition sign (l : list ascii) : bool * list ascii :=
  match l with
  | c :: l' =>
      if is_char 45 c then (true, l')
      else if is_char 43 c then (false, l')
      else (false, l)
  | [] => (false, l)
  end.

(** [exponent]: the decimal exponent and the unread input; no exponent part
    reads as exponent 0. *)
Definition exponent (underscores : bool) (l : list ascii)
  : option (Z * list ascii) :=
  match l with
  | c :: l' =>
      if is_char 101 (lower c) then
        let '(neg, l'') := sign l' in
        match digitpart underscores 0 l'' with
        | Some (x, _, rest) => Some (if neg then - x else x, rest)
        | None => None
        end
      else Some (0, l)
  | [] => Some (0, l)
  end.

(** The binary64 nearest to [(-1)^neg * d * 10^x].  Exponents far outside
    the binary64 range are decided without computing the power. *)
Definition float_of_decimal (neg : bool) (d x : Z) : float64 :=
  match d with
  | Zpos p =>
      if x >? 400 then FInf neg
      else if x <? - 400 - Z.pos (Pos.size p) then FZero neg
      else if 0 <=? x then
        match d * 10 ^ x with
        | Zpos n => round_pos neg n 0 false
        | _ => FZero neg
        end
      else
        let den := 10 ^ (- x) in
        let k := Z.max 0 (Z.log2 den + 65 - Z.log2 d) in
        let num := Z.shiftl d k in
        match num / den with
        | Zpos q => round_pos neg q (- k) (negb (num mod den =? 0))
        | _ => FZero neg
        end
  | _ => FZero neg
  end.

Definition strip (l : list ascii) : list ascii :=
  let drop := fix drop (l : list ascii) :=
    match l with
    | c :: l' => if is_space c then drop l' else l
    | [] => []
    end in
  rev (drop (rev (drop l))).

Definition parse_float (underscores : bool) (s : string) : option float64 :=
  let '(neg, body) := sign (strip (list_ascii_of_string s)) in
  let word := string_of_list_ascii (map lower body) in
  if String.eqb word "inf" || String.eqb word "infinity" then Some (FInf neg)
  else if String.eqb word "nan" then Some FNaN
  else
    match number underscores body with
    | Some (d, fr, rest) =>
        match exponent underscores rest with
        | Some (x, []) => Some (float_of_decimal neg d (x - fr))
        | _ => None
        end
    | None => None
    end.

(** [float(s)] for a [str] [s]. *)
Definition float_of_str (s : string) : res float64 :=
  match parse_float true s with
  | Some f => Ok f
  | None => Raise ValueError
  end.

(** *** Text of a value: [str(x)]

    [str] of an int is its decimal numeral.  [str] of a float is the
    shortest decimal numeral that reads back as the same binary64 (the
    nearest one to the exact value when several have that length), in
    positional form for decimal exponents from [-4] up to [15] and in
    exponent form outside. *)

Definition digit_char (d : Z) : ascii := ascii_of_N (Z.to_N (48 + d)).

Fixpoint dec_digits (fuel : nat) (n : Z) (acc : list ascii) : list ascii :=
  match fuel with
  | O => acc
  | S k =>
      let acc' := digit_char (n mod 10) :: acc in
      if n / 10 =? 0 then acc' else dec_digits k (n / 10) acc'
  end.

Definition digits_of_Z (n : Z) : list ascii :=
  dec_digits (S (Z.to_nat (Z.log2 n))) n [].

Definition str_of_int (z : Z) : string :=
  string_of_list_ascii
    (if z <? 0 then ascii_of_N 45 :: digits_of_Z (- z) else digits_of_Z z).

(** [scaled num den k = (q, r, d)] with [num / den * 10^k = q + r / d]
    and [0 <= r < d]. *)
Definition scaled (num den k : Z) : Z * Z * Z :=
  let n := if 0 <=? k then num * 10 ^ k else num in
  let d := if 0 <=? k then den else den * 10 ^ (- k) in
  (n / d, n mod d, d).

(** [floor (log10 (num / den))] *)
Definition log10_floor (num den : Z) : Z :=
  let t0 := ((Z.log2 num - Z.log2 den) * 30103) / 100000 in
  let ge t := let '(q, _, _) := scaled num den (- t) in 1 <=? q in
  if ge (t0 + 1) then t0 + 1 else if ge t0 then t0 else t0 - 1.

(** The shortest numeral [c * 10^x] with at most 17 digits that reads back
    as [f], trying [p], [p + 1], ... digits. *)
Fixpoint shortest (fuel : nat) (f : float64) (neg : bool) (num den t p : Z)
  : Z * Z :=
  let x := t - p + 1 in
  let '(lo, r, d) := scaled num den (- x) in
  let back c := float_eqb (float_of_decimal neg c x) f in
  let pick :=
    if r =? 0 then (if back lo then Some lo else None)
    else
      match back lo, back (lo + 1) with
      | true, true =>
          if 2 * r <? d then Some lo
          else if d <? 2 * r then Some (lo + 1)
          else Some (if Z.even lo then lo else lo + 1)
      | true, false => Some lo
      | false, true => Some (lo + 1)
      | false, false => None
      end in
  match pick, fuel with
  | Some c, _ => (c, x)
  | None, S k => shortest k f neg num den t (p + 1)
  | None, O => (lo, x)
  end.

Fixpoint strip_zeros (rdigits : list ascii) : list ascii :=
  match rdigits with
  | c :: l => if is_char 48 c then strip_zeros l else rdigits
  | [] => []
  end.

Definition zeros (n : Z) : list ascii := repeat (ascii_of_N 48) (Z.to_nat n).

(** Layout of the digits [ds] read as [0.ds * 10^decpt]. *)
Definition layout (ds : list ascii) (decpt : Z) : list ascii :=
  let nd := Z.of_nat (length ds) in
  let dot := ascii_of_N 46 in
  if (decpt <=? -4) || (16 <? decpt) then
    let x := decpt - 1 in
    let xs := digits_of_Z (Z.abs x) in
    let mant :=
      match ds with
      | c :: [] => [c]
      | c :: l => c :: dot :: l
      | [] => []
      end in
    mant ++ [ascii_of_N 101; ascii_of_N (if x <? 0 then 45 else 43)]
         ++ (if Z.abs x <? 10 then zeros 1 else []) ++ xs
  else if decpt <=? 0 then
    ascii_of_N 48 :: dot :: zeros (- decpt) ++ ds
  else if nd <=? decpt then
    ds ++ zeros (decpt - nd) ++ [dot; ascii_of_N 48]
  else
    take (Z.to_nat decpt) ds ++ dot :: drop (Z.to_nat decpt) ds.

Definition with_sign (neg : bool) (l : list ascii) : string :=
  string_of_list_ascii (if neg then ascii_of_N 45 :: l else l).

Definition str_of_float (f : float64) : string :=
  match f with
  | FNaN => "nan"
  | FInf neg => with_sign neg (list_ascii_of_string "inf")
  | FZero neg => with_sign neg (list_ascii_of_string "0.0")
  | FFin neg m e =>
      let num := if 0 <=? e then Z.shiftl (Z.pos m) e else Z.pos m in
      let den := if 0 <=? e then 1 else Z.shiftl 1 (- e) in
      let '(c, x) := shortest 16 f neg num den (log10_floor num den) 1 in
      let all := digits_of_Z c in
      let ds := rev (strip_zeros (rev all)) in
      with_sign neg (layout ds (x + Z.of_nat (length all)))
  end.

End Py.

Import Py.

(** ** Datasets

    A cell of the frame read by [pd.read_excel], as the handlers see it: a
    missing value ([None] or [NaN]), a number or a text. *)
Inductive cell :=
| CMissing
| CInt (z : Z)
| CFloat (f : float64)
| CStr (s : string).

(** [pd.isna(value)] *)
Definition isna (value : cell) : bool :=
  match value with
  | CMissing => true
  | CFloat f => is_nan f
  | _ => false
  end.

(** [float(value)] *)
Definition py_float (value : cell) : res float64 :=
  match value with
  | CMissing => Raise TypeError
  | CInt z => float_of_int z
  | CFloat f => Ok f
  | CStr s => float_of_str s
  end.

(** [str(value)] *)
Definition py_str (value : cell) : string :=
  match value with
  | CMissing => "None"
  | CInt z => str_of_int z
  | CFloat f => str_of_float f
  | CStr s => s
  end.

(** A frame: the header and the rows in file order; every row has one cell
    per header entry. *)
Record dataframe := DataFrame {
  df_columns : list string;
  df_rows : list (list cell)
}.


(** [df[col]]: the cells under the header entry [col]. *)
Definition df_col (df : dataframe) (col : string) : list cell :=
  match list_find (String.eqb col) (df_columns df) with
  | Some (i, _) => map (fun row => nth i row CMissing) (df_rows df)
  | None => []
  end.

(** ** Column analyzer *)

(** The column types the analyzer proposes. *)
Definition INTEGER : string := "INTEGER".
Definition REAL : string := "REAL".
Definition TEXT : string := "TEXT".

(** A numeric pandas column: [int64] when every value is an integer object,
    [float64] otherwise. *)
Inductive series :=
| IntSeries (l : list Z)
| FloatSeries (l : list float64).

Definition is_int_cell (c : cell) : bool :=
  match c with CInt _ => true | _ => false end.

(** One value of [pd.to_numeric(..., errors='coerce')] in a [float64]
    result: text that does not read as a number becomes [NaN].  The
    literals are taken to be those of [float], without the digit-group
    underscores. *)
Definition coerce_numeric (c : cell) : float64 :=
  match c with
  | CMissing => FNaN
  | CInt z => float_of_Z z
  | CFloat f => f
  | CStr s => match parse_float false s with Some f => f | None => FNaN end
  end.

(** [series.dropna()] *)
Definition dropna (s : list cell) : list cell :=
  filter (fun c => negb (isna c)) s.

(** [pd.to_numeric(s, errors='coerce')] *)
Definition to_numeric (s : list cell) : series :=
  if forallb is_int_cell s
  then IntSeries (omap (fun c => match c with CInt z => Some z | _ => None end) s)
  else FloatSeries (map coerce_numeric s).

Definition series_empty (s : series) : bool :=
  match s with
  | IntSeries l => match l with [] => true | _ => false end
  | FloatSeries l => match l with [] => true | _ => false end
  end.

(** [s.notna().all()] *)
Definition notna_all (s : series) : bool :=
  match s with
  | IntSeries _ => true
  | FloatSeries l => forallb (fun f => negb (is_nan f)) l
  end.

Definition int64_min : Z := - 2 ^ 63.
Definition int64_max : Z := 2 ^ 63 - 1.

Definition in_int64 (z : Z) : bool := (int64_min <=? z) && (z <=? int64_max).

(** The C conversion of a finite binary64 to [int64] that numpy applies:
    truncation; a value outside the [int64] range gives the x86-64
    "integer indefinite" value [-2^63]. *)
Definition cast_int64 (f : float64) : Z :=
  let z := trunc f in if in_int64 z then z else int64_min.

(** [s.astype(int)]: pandas refuses a [float64] column that holds [NaN] or
    an infinity (a [ValueError]), and casts the others value by value. *)
Definition astype_int (s : series) : res (list Z) :=
  match s with
  | IntSeries l => Ok l
  | FloatSeries l =>
      if forallb is_finite l then Ok (map cast_int64 l) else Raise ValueError
  end.

(** [(s == t).all()] for an [int64] column [t]; against a [float64] column
    numpy compares in [float64]. *)
Definition eq_all (s : series) (t : list Z) : bool :=
  match s with
  | IntSeries l => forallb (fun p => fst p =? snd p) (zip l t)
  | FloatSeries l =>
      forallb (fun p => float_eqb (fst p) (float_of_Z (snd p))) (zip l t)
  end.

Definition infer_data_type (s : list cell) : res string :=
  let series_numeric := to_numeric (dropna s) in
  if negb (series_empty series_numeric) && notna_all series_numeric then
    bind (astype_int series_numeric) (fun as_int =>
      if eq_all series_numeric as_int then Ok INTEGER else Ok REAL)
  else Ok TEXT.

(** [s.replace(old, new)] for a one-character [old]. *)
Fixpoint replace (old : ascii) (new : string) (s : string) : string :=
  match s with
  | EmptyString => EmptyString
  | String c r =>
      if Ascii.eqb c old then new +:+ replace old new r
      else String c (replace old new r)
  end.

(** The cleaned column name computed in [upload]. *)
Definition clean_column (col : string) : string :=
  replace "/" "" (replace ")" "" (replace "(" "" (replace "." ""
    (replace " " "_" col)))).

Record column_schema := ColumnSchema {
  original : string;
  cleaned : string;
  type : string
}.

(** [schema_info] of [upload]; an exception of the analysis ends the request
    with a flashed message. *)
Fixpoint schema_info_of (df : dataframe) (cols : list string)
  : res (list column_schema) :=
  match cols with
  | [] => Ok []
  | col :: rest =>
      bind (infer_data_type (df_col df col)) (fun dtype =>
      bind (schema_info_of df rest) (fun tl =>
      Ok (ColumnSchema col (clean_column col) dtype :: tl)))
  end.

Definition schema_info (df : dataframe) : res (list column_schema) :=
  schema_info_of df (df_columns df).

(** ** Storage engine

    The part of sqlite3 that the handlers use: one database file, one
    connection at a time, the four statements they issue. *)

Inductive sql_value :=
| SqlNull
| SqlInt (z : Z)
| SqlReal (f : float64)
| SqlText (s : string).

(** A table: its columns (name, declared type) in order, and its rows. *)
Record table := Table {
  t_columns : list (string * string);
  t_rows : list (list sql_value)
}.

(** The statements of the handlers.  The table name is interpolated into
    the statement text as one identifier; the column list of
    [CREATE TABLE] is text that the engine reads. *)
Inductive statement :=
| DropTableIfExists (table_name : string)
| CreateTable (table_name : string) (cols_sql : string)
| PragmaTableInfo (table_name : string)
| InsertValues (table_name : string) (placeholders : nat)
    (parameters : list sql_value).

Definition is_insert (s : statement) : bool :=
  match s with InsertValues _ _ _ => true | _ => false end.

(** *** Reading a column list

    The tokens of the engine that matter here: a double-quoted identifier
    ends at the first double quote that is not doubled; a bare word is made
    of letters, digits, [_], [$] and bytes above 127. *)

Definition is_dquote (c : ascii) : bool := is_char 34 c.

Definition is_word_char (c : ascii) : bool :=
  let n := Z.of_N (N_of_ascii c) in
  ((48 <=? n) && (n <=? 57)) || ((65 <=? n) && (n <=? 90))
  || ((97 <=? n) && (n <=? 122)) || (n =? 95) || (n =? 36) || (128 <=? n).

(** The identifier after an opening double quote, and the unread input;
    [None] when the closing quote is missing. *)
Fixpoint read_quoted (l : list ascii) : option (list ascii * list ascii) :=
  match l with
  | [] => None
  | c :: l' =>
      if is_dquote c then
        match l' with
        | c2 :: l'' =>
            if is_dquote c2
            then option_map (fun r => (c :: fst r, snd r)) (read_quoted l'')
            else Some ([], l')
        | [] => Some ([], [])
        end
      else option_map (fun r => (c :: fst r, snd r)) (read_quoted l')
  end.

Fixpoint read_word (l : list ascii) : list ascii * list ascii :=
  match l with
  | c :: l' =>
      if is_word_char c
      then let '(w, r) := read_word l' in (c :: w, r)
      else ([], l)
  | [] => ([], [])
  end.

Fixpoint skip_spaces (l : list ascii) : list ascii :=
  match l with
  | c :: l' => if is_space c then skip_spaces l' else l
  | [] => []
  end.

(** One column definition: a name, then at most one word of type. *)
Definition read_column (l : list ascii)
  : option (string * string * list ascii) :=
  let name :=
    match skip_spaces l with
    | c :: l' =>
        if is_dquote c then read_quoted l'
        else
          match read_word (c :: l') with
          | ([], _) => None
          | r => Some r
          end
    | [] => None
    end in
  match name with
  | Some (n, rest) =>
      let '(ty, rest') := read_word (skip_spaces rest) in
      Some (string_of_list_ascii n, string_of_list_ascii ty,
            skip_spaces rest')
  | None => None
  end.

(** Column definitions separated by commas, up to the end of the text. *)
Fixpoint read_columns (fuel : nat) (l : list ascii)
  : option (list (string * string)) :=
  match fuel with
  | O => None
  | S k =>
      match read_column l with
      | Some (n, ty, rest) =>
          match rest with
          | [] => Some [(n, ty)]
          | c :: rest' =>
              if is_char 44 c
              then option_map (cons (n, ty)) (read_columns k rest')
              else None
          end
      | None => None
      end
  end.

Definition parse_columns (cols_sql : string) : option (list (string * string)) :=
  let l := list_ascii_of_string cols_sql in read_columns (S (length l)) l.

(** Column names are compared without regard to ASCII letter case. *)
Definition fold_case (s : string) : string :=
  string_of_list_ascii (map lower (list_ascii_of_string s)).

Fixpoint distinct (names : list string) : bool :=
  match names with
  | [] => true
  | n :: rest => negb (existsb (String.eqb n) rest) && distinct rest
  end.

Definition columns_accepted (cols : list (string * string)) : bool :=
  distinct (map (fun c => fold_case (fst c)) cols).

(** *** Engine state and requests *)

(** Messages shown to the user by [flash]. *)
Inductive message :=
| MissingSchemaInfo             (* create_db: a required field is absent *)
| CreateFailed (e : exn)        (* create_db: table creation failed *)
| MissingArguments              (* insert_data: table name or path absent *)
| ColumnCountMismatch           (* insert_data: file and table disagree *)
| InsertFailed (e : exn).       (* insert_data: the load failed *)

Inductive response :=
| RedirectIndex
| RedirectInsertData (table_name filepath : string)
| RedirectSuccess (table_name : string) (count : nat)
| BadRequest.

(** What a request can read and change: the database file ([committed]),
    the uncommitted changes of the open connection ([pending], present while
    a transaction is open), the statements run so far with their outcome,
    the statements that the environment makes fail (by position in [log]),
    the connections that are open, the flashed messages and the uploaded
    files as [pd.read_excel] reads them. *)
Record world := World {
  committed : gmap string table;
  pending : option (gmap string table);
  log : list (statement * bool);
  faults : nat -> bool;
  open_connections : nat;
  flashed : list message;
  files : gmap string dataframe
}.

Definition set_committed (db : gmap string table) (w : world) : world :=
  World db (pending w) (log w) (faults w) (open_connections w) (flashed w)
        (files w).
Definition set_pending (p : option (gmap string table)) (w : world) : world :=
  World (committed w) p (log w) (faults w) (open_connections w) (flashed w)
        (files w).
Definition add_log (s : statement) (ok : bool) (w : world) : world :=
  World (committed w) (pending w) (log w ++ [(s, ok)]) (faults w)
        (open_connections w) (flashed w) (files w).
Definition set_open (n : nat) (w : world) : world :=
  World (committed w) (pending w) (log w) (faults w) n (flashed w) (files w).
Definition add_flash (m : message) (w : world) : world :=
  World (committed w) (pending w) (log w) (faults w) (open_connections w)
        (flashed w ++ [m]) (files w).

(** The database as the open connection sees it. *)
Definition current (w : world) : gmap string table :=
  match pending w with
  | Some db => db
  | None => committed w
  end.

(** A handler step: a result or an exception, and the world it leaves. *)
Definition M (A : Type) : Type := world -> res A * world.

Definition ret {A} (a : A) : M A := fun w => (Ok a, w).
Definition raise {A} (e : exn) : M A := fun w => (Raise e, w).
Definition lift {A} (r : res A) : M A := fun w => (r, w).
Definition bindM {A B} (m : M A) (k : A -> M B) : M B :=
  fun w =>
    match m w with
    | (Ok a, w') => k a w'
    | (Raise e, w') => (Raise e, w')
    end.

(** [try: m except Exception as e: h e] *)
Definition try_except {A} (m : M A) (h : exn -> M A) : M A :=
  fun w =>
    match m w with
    | (Ok a, w') => (Ok a, w')
    | (Raise e, w') => h e w'
    end.

Notation "'let*' x ':=' m 'in' k" := (bindM m (fun x => k))
  (at level 10, x name, m at level 100, k at level 200,
   format "'[v' 'let*'  x  ':='  m  'in' '/' k ']'").
Notation "m '>>' k" := (bindM m (fun _ => k))
  (at level 100, k at level 200, right associativity,
   format "'[v' m  '>>' '/' k ']'").

Definition int_fits (v : sql_value) : bool :=
  match v with
  | SqlInt z => in_int64 z
  | _ => true
  end.

(** The effect of one statement on a database: the rows it returns (only
    [PRAGMA table_info] returns any: a name and a declared type per
    column) and the database after it. *)
Definition run_statement (db : gmap string table) (s : statement)
  : res (list (string * string) * gmap string table) :=
  match s with
  | DropTableIfExists n => Ok ([], delete n db)
  | CreateTable n cols_sql =>
      match db !! n, parse_columns cols_sql with
      | None, Some cols =>
          if columns_accepted cols
          then Ok ([], <[n := Table cols []]> db)
          else Raise OperationalError
      | _, _ => Raise OperationalError
      end
  | PragmaTableInfo n =>
      Ok (match db !! n with Some t => t_columns t | None => [] end, db)
  | InsertValues n k params =>
      match db !! n with
      | Some t =>
          if negb ((0 <? k)%nat && (k =? length (t_columns t))%nat
                   && (length params =? k)%nat)
          then Raise OperationalError
          else if negb (forallb int_fits params) then Raise OverflowError
          else Ok ([], <[n := Table (t_columns t) (t_rows t ++ [params])]> db)
      | None => Raise OperationalError
      end
  end.

(** [cursor.execute(...)].  An [INSERT] opens a transaction when none is
    open; the other statements take effect at once outside a transaction. *)
Definition execute (s : statement) : M (list (string * string)) :=
  fun w =>
    if faults w (length (log w)) then (Raise OperationalError, add_log s false w)
    else
      match run_statement (current w) s with
      | Ok (rows, db) =>
          let w' := add_log s true w in
          (Ok rows,
           if is_insert s || bool_decide (is_Some (pending w))
           then set_pending (Some db) w'
           else set_committed db w')
      | Raise e => (Raise e, add_log s false w)
      end.

(** [get_db()]: a new connection, with no transaction open. *)
Definition get_db : M unit :=
  fun w => (Ok tt, set_open (S (open_connections w)) (set_pending None w)).

(** [db.commit()] *)
Definition commit : M unit :=
  fun w => (Ok tt, set_pending None (set_committed (current w) w)).

(** [db.close()]: uncommitted changes are rolled back. *)
Definition close : M unit :=
  fun w => (Ok tt, set_open (pred (open_connections w)) (set_pending None w)).

Definition flash (m : message) : M unit :=
  fun w => (Ok tt, add_flash m w).

(** [pd.read_excel(filepath, engine='openpyxl')] *)
Definition read_excel (filepath : string) : M dataframe :=
  fun w =>
    match files w !! filepath with
    | Some df => (Ok df, w)
    | None => (Raise IOError, w)
    end.

(** Truth value of a request parameter that may be absent. *)
Definition truthy (o : option string) : bool :=
  match o with
  | Some s => negb (String.eqb s "")
  | None => false
  end.

(** ** Schema builder: [create_db] *)

(** The form fields [column_name_0], [column_type_0], [column_name_1], ...
    read while the next name is present; a name without its type is a
    [KeyError].  The form is finite, so [fuel] above its size is enough. *)
Fixpoint collect_columns (fuel : nat) (form : gmap string string) (i : nat)
  : res (list (string * string)) :=
  match fuel with
  | O => Ok []
  | S k =>
      let idx := str_of_int (Z.of_nat i) in
      match form !! ("column_name_" +:+ idx) with
      | None => Ok []
      | Some name =>
          match form !! ("column_type_" +:+ idx) with
          | None => Raise KeyError
          | Some ty =>
              bind (collect_columns k form (S i)) (fun rest =>
              Ok ((name, ty) :: rest))
          end
      end
  end.

Definition dquote : string := String (ascii_of_N 34) EmptyString.

(** [sep.join(l)] *)
Fixpoint join (sep : string) (l : list string) : string :=
  match l with
  | [] => ""
  | [s] => s
  | s :: rest => s +:+ sep +:+ join sep rest
  end.

(** [cols_sql]: each name between double quotes, a space, the type. *)
Definition cols_sql_of (columns : list (string * string)) : string :=
  join ", " (map (fun col => dquote +:+ fst col +:+ dquote +:+ " " +:+ snd col)
                 columns).

Definition table_name_of (year : string) : string := "internships_" +:+ year.

(** The [try] block of [create_db] and its handler. *)
Definition create_table (table_name filepath : string)
    (columns : list (string * string)) : M response :=
  try_except
    (get_db >>
     execute (DropTableIfExists table_name) >>
     execute (CreateTable table_name (cols_sql_of columns)) >>
     commit >>
     close >>
     ret (RedirectInsertData table_name filepath))
    (fun e => flash (CreateFailed e) >> ret RedirectIndex).

Definition create_db (form : gmap string string) : M response :=
  let filepath := form !! "filepath" in
  let year := form !! "year" in
  match collect_columns (S (size form)) form 0 with
  | Raise _ => ret BadRequest
  | Ok columns =>
      match filepath, year with
      | Some fp, Some y =>
          if truthy filepath && truthy year
             && negb (bool_decide (columns = []))
          then create_table (table_name_of y) fp columns
          else flash MissingSchemaInfo >> ret RedirectIndex
      | _, _ => flash MissingSchemaInfo >> ret RedirectIndex
      end
  end.

(** ** Row loader: [insert_data] *)

(** The body of the [try] inside the cell loop. *)
Definition convert (target_type : string) (value : cell) : res sql_value :=
  if String.eqb target_type "INTEGER" then
    bind (py_float value) (fun f =>
    bind (int_of_float f) (fun z => Ok (SqlInt z)))
  else if String.eqb target_type "REAL" then
    bind (py_float value) (fun f => Ok (SqlReal f))
  else Ok (SqlText (py_str value)).

(** [sanitized_value] for one cell. *)
Definition sanitize (target_type : string) (value : cell) : res sql_value :=
  if negb (isna value)
  then try_except_value_type (convert target_type value) (Ok SqlNull)
  else Ok SqlNull.

(** [{col['name']: col['type'] for col in table_info}]: a later entry
    replaces an earlier one with the same name. *)
Definition dict_of (table_info : list (string * string)) : gmap string string :=
  foldl (fun m col => <[fst col := snd col]> m) ∅ table_info.

(** The inner loop, from position [i] of the row. *)
Fixpoint sanitize_row (db_column_names : list string)
    (db_column_types : gmap string string) (i : nat) (row : list cell)
  : res (list sql_value) :=
  match row with
  | [] => Ok []
  | value :: rest =>
      match db_column_names !! i with
      | None => Raise IndexError
      | Some db_col_name =>
          match db_column_types !! db_col_name with
          | None => Raise KeyError
          | Some target_type =>
              bind (sanitize target_type value) (fun sanitized_value =>
              bind (sanitize_row db_column_names db_column_types (S i) rest)
                   (fun values => Ok (sanitized_value :: values)))
          end
      end
  end.

(** The outer loop: one [INSERT] per row, counted after it succeeded. *)
Fixpoint insert_rows (table_name : string) (db_column_names : list string)
    (db_column_types : gmap string string) (rows : list (list cell))
    (inserted_count : nat) : M nat :=
  match rows with
  | [] => ret inserted_count
  | row :: rest =>
      let* values_to_insert :=
        lift (sanitize_row db_column_names db_column_types 0 row) in
      execute (InsertValues table_name (length db_column_names)
                            values_to_insert) >>
      insert_rows table_name db_column_names db_column_types rest
                  (S inserted_count)
  end.

(** The [try] block of [insert_data] and its handler. *)
Definition load (table_name filepath : string) : M response :=
  try_except
    (get_db >>
     let* table_info := execute (PragmaTableInfo table_name) in
     let db_column_names := map fst table_info in
     let db_column_types := dict_of table_info in
     let* df := read_excel filepath in
     if negb (length (df_columns df) =? length db_column_names)%nat then
       flash ColumnCountMismatch >> close >> ret RedirectIndex
     else
       let* inserted_count :=
         insert_rows table_name db_column_names db_column_types
                     (df_rows df) 0 in
       commit >>
       close >>
       ret (RedirectSuccess table_name inserted_count))
    (fun e => flash (InsertFailed e) >> close >> ret RedirectIndex).

Definition insert_data (table_name filepath : option string) : M response :=
  match table_name, filepath with
  | Some t, Some fp =>
      if truthy table_name && truthy filepath then load t fp
      else flash MissingArguments >> ret RedirectIndex
  | _, _ => flash MissingArguments >> ret RedirectIndex
  end.

(** ** Reference readings used by the statements below *)

(** The cleaning rule read character by character: a space becomes an
    underscore, the characters [.], [(], [)] and [/] disappear, every other
    character stays. *)
Definition spec_clean_char (c : ascii) : string :=
  if Ascii.eqb c " " then "_"
  else if Ascii.eqb c "." || Ascii.eqb c "(" || Ascii.eqb c ")"
          || Ascii.eqb c "/"
  then ""
  else String c "".

Fixpoint spec_clean (s : string) : string :=
  match s with
  | EmptyString => EmptyString
  | String c r => spec_clean_char c +:+ spec_clean r
  end.

Definition forbidden_char (c : ascii) : bool :=
  Ascii.eqb c " " || Ascii.eqb c "." || Ascii.eqb c "(" || Ascii.eqb c ")"
  || Ascii.eqb c "/".

Fixpoint string_forall (p : ascii -> bool) (s : string) : bool :=
  match s with
  | EmptyString => true
  | String c r => p c && string_forall p r
  end.

(** A non-missing cell that does not read as a number. *)
Definition unparsable (c : cell) : bool :=
  match c with
  | CStr s =>
      match parse_float false s with
      | Some f => is_nan f
      | None => true
      end
  | _ => false
  end.



(** The cells of a row against the types in the same positions. *)
Fixpoint sanitize_aligned (types : list string) (row : list cell)
    {struct row} : res (list sql_value) :=
  match row, types with
  | [], _ => Ok []
  | _ :: _, [] => Raise IndexError
  | value :: rest, target_type :: types' =>
      bind (sanitize target_type value) (fun v =>
      bind (sanitize_aligned types' rest) (fun vs => Ok (v :: vs)))
  end.

(** The schema of a table as [PRAGMA table_info] reads it back from the
    catalog; a table that does not exist has no columns. *)
Definition table_info (db : gmap string table) (table_name : string)
  : list (string * string) :=
  match db !! table_name with
  | Some t => t_columns t
  | None => []
  end.

(** The statements run since the world [w], in the log of [w']. *)
Definition new_log (w w' : world) : list (statement * bool) :=
  drop (length (log w)) (log w').

(** The three ways a load ends.  In each the connection is closed and no
    transaction stays open. *)
Inductive load_outcome (t fp : string) (w w' : world) : response -> Prop :=
| LoadSuccess (df : dataframe) (l : list (statement * bool)) :
    files w !! fp = Some df ->
    length (df_columns df) = length (table_info (committed w) t) ->
    flashed w' = flashed w ->
    log w' = log w ++ (PragmaTableInfo t, true) :: l ->
    Forall (fun p => is_insert (fst p) = true) l ->
    Forall (fun p => snd p = true) l ->
    length l = length (df_rows df) ->
    load_outcome t fp w w' (RedirectSuccess t (length (df_rows df)))
| LoadMismatch (df : dataframe) :
    files w !! fp = Some df ->
    length (df_columns df) <> length (table_info (committed w) t) ->
    flashed w' = flashed w ++ [ColumnCountMismatch] ->
    log w' = log w ++ [(PragmaTableInfo t, true)] ->
    committed w' = committed w ->
    load_outcome t fp w w' RedirectIndex
| LoadFailure (e : exn) :
    flashed w' = flashed w ++ [InsertFailed e] ->
    committed w' = committed w ->
    load_outcome t fp w w' RedirectIndex.

(** A small installation used to run the handlers: one table with an
    INTEGER and a TEXT column, one uploaded file, and optionally one
    statement (by position) that the engine fails. *)
Definition ex_table : table := Table [("a", INTEGER); ("b", TEXT)] [].

Definition ex_world (fault_at : option nat) (df : dataframe) : world :=
  World (<["internships_2024" := ex_table]> ∅) None []
        (fun k => match fault_at with
                  | Some n => (k =? n)%nat
                  | None => false
                  end)
        0 [] (<["uploads/2024_data.xlsx" := df]> ∅).

Definition ex_two_rows : dataframe :=
  DataFrame ["a"; "b"] [[CInt 1; CStr "x"]; [CStr "abc"; CMissing]].

Definition ex_no_rows : dataframe := DataFrame ["a"; "b"] [].

Definition ex_three_columns : dataframe :=
  DataFrame ["a"; "b"; "c"] [[CInt 1; CStr "x"; CMissing]].



Definition ex_overflow_rows : dataframe :=
  DataFrame ["a"; "b"] [[CInt 1; CStr "x"]; [CStr "inf"; CStr "y"]].

(** Confirmation forms.  In the first a column name holds a double
    quote; in the second two columns have the same name. *)
Definition ex_form (columns : list (string * string)) : gmap string string :=
  <["filepath" := "uploads/2024_data.xlsx"]>
  (<["year" := "2024"]>
  (list_to_map
     (flat_map (fun ic =>
        let idx := str_of_int (Z.of_nat (fst ic)) in
        [("column_name_" +:+ idx, fst (snd ic));
         ("column_type_" +:+ idx, snd (snd ic))])
        (zip (seq 0 (length columns)) columns)))).

Definition ex_quote_name : string := "a" +:+ dquote +:+ "b".

Definition ex_form_quote : gmap string string :=
  ex_form [(ex_quote_name, TEXT)].

Definition ex_form_duplicate : gmap string string :=
  ex_form [("a", INTEGER); ("a", TEXT)].

Definition ex_empty_world : world :=
  World ∅ None [] (fun _ => false) 0 [] ∅.



(** The binary64 of the numeral [1.5]. *)
Definition ex_1_5 : float64 := FFin false 3 (-1).

(** The text the engine is expected to read for a column list: for each
    column a double quote, the name, a double quote, a space and the type,
    with a comma and a space between columns. *)
Definition column_text (col : string * string) : list ascii :=
  ascii_of_N 34 :: list_ascii_of_string (fst col)
    ++ ascii_of_N 34 :: ascii_of_N 32 :: list_ascii_of_string (snd col).

Fixpoint columns_text (columns : list (string * string)) : list ascii :=
  match columns with
  | [] => []
  | [col] => column_text col
  | col :: rest =>
      column_text col ++ ascii_of_N 44 :: ascii_of_N 32 :: columns_text rest
  end.

(** A column whose quoted name needs no escaping and whose type is one
    word. *)
Definition plain_column (col : string * string) : bool :=
  string_forall (fun c => negb (is_dquote c)) (fst col)
  && string_forall is_word_char (snd col).

(** Unfolding of the handler steps, for the proofs about requests. *)
Ltac step_unfold :=
  unfold close, commit, flash, get_db, read_excel, ret, raise, lift, bindM,
    try_except.




(** The names of the form fields of the column at an index. *)
Definition name_key (i : nat) : string :=
  "column_name_" +:+ str_of_int (Z.of_nat i).
Definition type_key (i : nat) : string :=
  "column_type_" +:+ str_of_int (Z.of_nat i).

(** The number written by a list of decimal digits, read after [acc]. *)
Fixpoint read_digits (acc : Z) (l : list ascii) : Z :=
  match l with
  | [] => acc
  | c :: l' => read_digits (10 * acc + (Z.of_N (N_of_ascii c) - 48)) l'
  end.

(** Two databases that differ at most in the rows of one table. *)
Definition same_but_rows (t : string) (db db' : gmap string table) : Prop :=
  (forall t', t' <> t -> db' !! t' = db !! t')
  /\ table_info db' t = table_info db t.

(** A run of statements that stops at its first failure. *)
Definition stops_at_failure (l : list (statement * bool)) : Prop :=
  exists done last,
    l = done ++ last
    /\ Forall (fun p => snd p = true) done
    /\ (last = [] \/ exists s, last = [(s, false)]).

(** * Properties *)

(** ** Name cleaning *)

Lemma append_cons c (s t : string) : String c s +:+ t = String c (s +:+ t).
Proof. reflexivity. Qed.

Lemma append_nil (t : string) : "" +:+ t = t.
Proof. reflexivity. Qed.

Lemma append_assoc (s t u : string) : s +:+ t +:+ u = (s +:+ t) +:+ u.
Proof.
  induction s as [|c s IH]; [reflexivity|].
  rewrite !append_cons. now f_equal.
Qed.

Lemma replace_app old new s t :
  replace old new (s +:+ t) = replace old new s +:+ replace old new t.
Proof.
  induction s as [|c s IH]; [reflexivity|].
  rewrite append_cons. simpl. rewrite IH.
  destruct (Ascii.eqb c old).
  - apply append_assoc.
  - now rewrite append_cons.
Qed.

Lemma spec_clean_char_steps c :
  replace "/" "" (replace ")" "" (replace "(" "" (replace "." ""
    (replace " " "_" (String c ""))))) = spec_clean_char c.
Proof.
  destruct c as [[] [] [] [] [] [] [] []]; reflexivity.
Qed.

Lemma clean_column_cons c col :
  clean_column (String c col) = spec_clean_char c +:+ clean_column col.
Proof.
  unfold clean_column.
  change (String c col) with (String c "" +:+ col).
  rewrite !replace_app. now rewrite spec_clean_char_steps.
Qed.

Lemma string_forall_app p s t :
  string_forall p (s +:+ t) = string_forall p s && string_forall p t.
Proof.
  induction s as [|c s IH]; [reflexivity|].
  rewrite append_cons. simpl. rewrite IH. now rewrite andb_assoc.
Qed.

Lemma spec_clean_char_allowed c :
  string_forall (fun x => negb (forbidden_char x)) (spec_clean_char c) = true.
Proof.
  destruct c as [[] [] [] [] [] [] [] []]; reflexivity.
Qed.

(** C7: the cleaned name is the original with each space replaced by an
    underscore and each of [.], [(], [)], [/] deleted, and therefore holds
    none of these five characters. *)
Theorem clean_column_spec (col : string) :
  clean_column col = spec_clean col
  /\ string_forall (fun c => negb (forbidden_char c)) (clean_column col) = true.
Proof.
  induction col as [|c col [IH1 IH2]].
  - split; reflexivity.
  - rewrite clean_column_cons. split.
    + simpl. now rewrite IH1.
    + rewrite string_forall_app, spec_clean_char_allowed, IH2. reflexivity.
Qed.

(** ** Column analyzer *)

Lemma dropna_all_missing (s : list cell) :
  Forall (fun c => isna c = true) s -> dropna s = [].
Proof.
  induction 1 as [|c s Hc _ IH]; [reflexivity|].
  unfold dropna in *. rewrite filter_cons, IH.
  destruct (decide _) as [H|_]; [|reflexivity].
  rewrite Hc in H. contradiction.
Qed.

Lemma in_dropna (c : cell) (s : list cell) :
  In c s -> isna c = false -> In c (dropna s).
Proof.
  intros Hin Hna. apply list_elem_of_In. apply list_elem_of_In in Hin.
  unfold dropna. apply list_elem_of_filter. split; [|exact Hin].
  now rewrite Hna.
Qed.

Lemma forallb_false_of {A} (p : A -> bool) (x : A) (l : list A) :
  In x l -> p x = false -> forallb p l = false.
Proof.
  intros Hin Hp. destruct (forallb p l) eqn:E; [|reflexivity].
  rewrite forallb_forall in E. specialize (E x Hin). congruence.
Qed.

Lemma unparsable_coerce (c : cell) :
  unparsable c = true ->
  isna c = false /\ is_int_cell c = false /\ is_nan (coerce_numeric c) = true.
Proof.
  destruct c as [|z|f|str]; simpl; try discriminate.
  destruct (parse_float false str); auto.
Qed.

(** C6: a column with a non-missing value that does not read as a number,
    and a column whose values are all missing, are both inferred as TEXT. *)
Theorem infer_data_type_text (s : list cell) :
  Exists (fun c => unparsable c = true) s
  \/ Forall (fun c => isna c = true) s ->
  infer_data_type s = Ok TEXT.
Proof.
  intros [Hex|Hall]; unfold infer_data_type.
  - apply Exists_exists in Hex as (c & Hin & Hc).
    apply unparsable_coerce in Hc as (Hna & Hint & Hnan).
    apply list_elem_of_In in Hin.
    pose proof (in_dropna c s Hin Hna) as Hd.
    unfold to_numeric.
    rewrite (forallb_false_of is_int_cell c _ Hd Hint). simpl.
    rewrite (forallb_false_of (fun f => negb (is_nan f)) (coerce_numeric c)).
    + now rewrite andb_false_r.
    + now apply in_map.
    + now rewrite Hnan.
  - now rewrite (dropna_all_missing s Hall).
Qed.

Lemma infer_data_type_text_witness :
  infer_data_type [CStr "a"; CInt 2; CInt 3] = Ok TEXT.
Proof.
  apply infer_data_type_text. left. apply Exists_cons_hd. reflexivity.
Defined.

(** ** Cell coercion *)


Lemma sanitize_integer_parse_failure (value : cell) :
  isna value = false -> py_float value = Raise ValueError ->
  sanitize "INTEGER" value = Ok SqlNull.
Proof.
  intros Hna Hf. unfold sanitize, convert. rewrite Hna. simpl.
  now rewrite Hf.
Qed.


Lemma sanitize_integer_infinite (value : cell) (neg : bool) :
  isna value = false -> py_float value = Ok (FInf neg) ->
  sanitize "INTEGER" value = Raise OverflowError.
Proof.
  intros Hna Hf. unfold sanitize, convert. rewrite Hna. simpl.
  now rewrite Hf.
Qed.


Lemma sanitize_real_parse_failure (value : cell) :
  isna value = false -> py_float value = Raise ValueError ->
  sanitize "REAL" value = Ok SqlNull.
Proof.
  intros Hna Hf. unfold sanitize, convert. rewrite Hna. simpl.
  now rewrite Hf.
Qed.


(** The only exception a cell can raise out of [sanitize] is an
    [OverflowError]. *)
Lemma sanitize_raises_only_overflow (target_type : string) (value : cell)
    (e : exn) :
  sanitize target_type value = Raise e -> e = OverflowError.
Proof.
  unfold sanitize, convert, try_except_value_type.
  destruct (negb (isna value)); [|discriminate].
  destruct (String.eqb target_type "INTEGER").
  - destruct value as [|z|f|s]; simpl.
    + discriminate.
    + unfold float_of_int. destruct (is_inf (float_of_Z z)); simpl.
      * congruence.
      * destruct (float_of_Z z); simpl; congruence.
    + destruct f; simpl; congruence.
    + unfold float_of_str. destruct (parse_float true s) as [[]|]; simpl;
        congruence.
  - destruct (String.eqb target_type "REAL"); [|discriminate].
    destruct value as [|z|f|s]; simpl.
    + discriminate.
    + unfold float_of_int. destruct (is_inf (float_of_Z z)); simpl; congruence.
    + discriminate.
    + unfold float_of_str. destruct (parse_float true s); simpl; congruence.
Qed.

(** C1: an INTEGER target does not always yield a value or null: the text
    [inf] reads as a float (no parse failure), the truncation raises
    [OverflowError], and the handler of the cell lets it through. *)
Theorem sanitize_integer_inf_raises :
  py_float (CStr "inf") = Ok (FInf false)
  /\ sanitize "INTEGER" (CStr "inf") = Raise OverflowError
  /\ sanitize "INTEGER" (CStr "1e999") = Raise OverflowError
  /\ sanitize "INTEGER" (CFloat (FInf false)) = Raise OverflowError.
Proof. repeat split; vm_compute; reflexivity. Qed.

Lemma dict_of_foldl_notin (info : list (string * string))
    (m : gmap string string) (n : string) :
  ~ In n (map fst info) ->
  foldl (fun m col => <[fst col := snd col]> m) m info !! n = m !! n.
Proof.
  revert m. induction info as [|[k v] info IH]; intros m Hn; [reflexivity|].
  simpl in *. rewrite IH by tauto.
  apply lookup_insert_ne. intros ->. tauto.
Qed.

Lemma dict_of_foldl_lookup (info : list (string * string))
    (m : gmap string string) (i : nat) (n t : string) :
  List.NoDup (map fst info) -> info !! i = Some (n, t) ->
  foldl (fun m col => <[fst col := snd col]> m) m info !! n = Some t.
Proof.
  revert m i. induction info as [|[k v] info IH]; intros m i Hnd Hi.
  - discriminate.
  - inversion Hnd as [|? ? Hk Hnd']; subst. destruct i as [|i]; simpl in *.
    + injection Hi as -> ->. rewrite dict_of_foldl_notin by exact Hk.
      apply lookup_insert_eq.
    + now apply (IH _ i).
Qed.

Lemma dict_of_lookup (info : list (string * string)) (i : nat)
    (n t : string) :
  List.NoDup (map fst info) -> info !! i = Some (n, t) ->
  dict_of info !! n = Some t.
Proof. apply dict_of_foldl_lookup. Qed.

Lemma sanitize_row_from (info : list (string * string)) (i : nat)
    (row : list cell) :
  List.NoDup (map fst info) ->
  sanitize_row (map fst info) (dict_of info) i row
  = sanitize_aligned (drop i (map snd info)) row.
Proof.
  intros Hnd. revert i. induction row as [|value rest IH]; intros i.
  - simpl. now destruct (drop i (map snd info)).
  - simpl. rewrite list_lookup_fmap.
    destruct (info !! i) as [[n t]|] eqn:Hi; simpl.
    + rewrite (dict_of_lookup info i n t Hnd Hi).
      rewrite (drop_S (map snd info) t i)
        by (rewrite list_lookup_fmap, Hi; reflexivity).
      now rewrite IH.
    + apply lookup_ge_None in Hi.
      rewrite drop_ge by (rewrite length_map; exact Hi). reflexivity.
Qed.

(** The type used for the cell at a position is the declared type of the
    table column at that position (column names of a table are distinct). *)
Lemma sanitize_row_aligned (info : list (string * string))
    (row : list cell) :
  List.NoDup (map fst info) ->
  sanitize_row (map fst info) (dict_of info) 0 row
  = sanitize_aligned (map snd info) row.
Proof. intros Hnd. now rewrite sanitize_row_from. Qed.

(** ** Storage steps *)

Lemma execute_pragma (w : world) (t : string) :
  faults w (length (log w)) = false ->
  execute (PragmaTableInfo t) w
  = (Ok (table_info (current w) t), add_log (PragmaTableInfo t) true w).
Proof.
  intros Hf. unfold execute, table_info, current. rewrite Hf. simpl.
  destruct w as [c [p|] l fs n fl fi]; simpl; reflexivity.
Qed.

Lemma execute_fault (w : world) (s : statement) :
  faults w (length (log w)) = true ->
  execute s w = (Raise OperationalError, add_log s false w).
Proof. intros Hf. unfold execute. now rewrite Hf. Qed.

(** An [INSERT] leaves the database file as it is: its row goes to the
    open transaction. *)
Lemma execute_insert_frame (w w' : world) (t : string) (k : nat)
    (vs : list sql_value) (r : res (list (string * string))) :
  execute (InsertValues t k vs) w = (r, w') ->
  committed w' = committed w /\ flashed w' = flashed w
  /\ open_connections w' = open_connections w /\ files w' = files w
  /\ faults w' = faults w
  /\ log w' = log w ++ [(InsertValues t k vs,
                         match r with Ok _ => true | Raise _ => false end)].
Proof.
  unfold execute. destruct (faults w (length (log w))).
  - intros [= <- <-]. simpl. auto 10.
  - destruct (run_statement (current w) (InsertValues t k vs)) as [[rows db]|e].
    + intros [= <- <-]. simpl. auto 10.
    + intros [= <- <-]. simpl. auto 10.
Qed.

Lemma insert_rows_frame (t : string) (names : list string)
    (types : gmap string string) (rows : list (list cell)) :
  forall (c : nat) (w w' : world) (r : res nat),
  insert_rows t names types rows c w = (r, w') ->
  committed w' = committed w /\ flashed w' = flashed w
  /\ open_connections w' = open_connections w /\ files w' = files w
  /\ faults w' = faults w
  /\ exists l, log w' = log w ++ l
       /\ Forall (fun p => is_insert (fst p) = true) l
       /\ match r with
          | Ok n => n = (c + length rows)%nat /\ length l = length rows
                    /\ Forall (fun p => snd p = true) l
          | Raise _ => True
          end.
Proof.
  induction rows as [|row rows IH]; intros c w w' r; simpl.
  - intros [= <- <-]. repeat split; try reflexivity.
    exists []. rewrite app_nil_r. repeat split; auto; lia.
  - step_unfold.
    destruct (sanitize_row names types 0 row) as [vs|e].
    + destruct (execute (InsertValues t (length names) vs) w) as [r1 w1] eqn:E.
      apply execute_insert_frame in E as (Hc & Hfl & Ho & Hfi & Hfa & Hl).
      destruct r1 as [rs|e].
      * intros H. apply IH in H as (Hc' & Hfl' & Ho' & Hfi' & Hfa' & l & Hl' & Hi & Hr).
        repeat split; try congruence.
        exists ((InsertValues t (length names) vs, true) :: l).
        rewrite Hl', Hl, <- app_assoc. repeat split; auto.
        destruct r as [n|e]; [|exact I].
        destruct Hr as (-> & Hlen & Hok). simpl. repeat split; auto; lia.
      * intros [= <- <-]. repeat split; try congruence.
        eexists. split; [exact Hl|]. split; [|exact I].
        repeat constructor.
    + intros [= <- <-]. repeat split; try reflexivity.
      exists []. rewrite app_nil_r. auto.
Qed.

(** ** Row loader *)

Lemma load_cases (t fp : string) (w : world) :
  exists (r : response) (w' : world),
    load t fp w = (Ok r, w')
    /\ open_connections w' = open_connections w
    /\ pending w' = None
    /\ files w' = files w
    /\ load_outcome t fp w w' r.
Proof.
  unfold load. step_unfold. simpl.
  destruct (faults w (length (log w))) eqn:Hf.
  - rewrite execute_fault by exact Hf. simpl.
    eexists _, _. split; [reflexivity|]. simpl. repeat split.
    eapply LoadFailure; simpl; reflexivity.
  - rewrite execute_pragma by exact Hf. simpl.
    destruct (files w !! fp) as [df|] eqn:Hdf.
    2:{ simpl. eexists _, _. split; [reflexivity|]. simpl. repeat split.
        eapply LoadFailure; simpl; reflexivity. }
    rewrite length_map.
    change (current (set_open (S (open_connections w)) (set_pending None w)))
      with (committed w).
    destruct (length (df_columns df)
              =? length (table_info (committed w) t))%nat eqn:Hlen; simpl.
    + apply Nat.eqb_eq in Hlen.
      destruct (insert_rows t (map fst (table_info (committed w) t))
                  (dict_of (table_info (committed w) t)) (df_rows df) 0
                  (add_log (PragmaTableInfo t) true
                     (set_open (S (open_connections w))
                        (set_pending None w))))
        as [r1 w1] eqn:E.
      apply insert_rows_frame in E
        as (Hc & Hfl & Ho & Hfi & Hfa & l & Hl & Hi & Hr).
      simpl in *. destruct r1 as [n|e].
      * destruct Hr as (-> & Hn & Hok).
        eexists _, _. split; [reflexivity|]. simpl.
        rewrite Ho. repeat split; [exact Hfi|].
        eapply (LoadSuccess t fp w _ df l); simpl; auto.
        rewrite Hl, <- app_assoc. reflexivity.
      * eexists _, _. split; [reflexivity|]. simpl.
        rewrite Ho. repeat split; [exact Hfi|].
        eapply LoadFailure; simpl; [rewrite Hfl; reflexivity|exact Hc].
    + apply Nat.eqb_neq in Hlen.
      eexists _, _. split; [reflexivity|]. simpl. repeat split.
      eapply (LoadMismatch t fp w _ df); simpl; auto.
Qed.

Lemma insert_data_is_load (t fp : string) :
  t <> "" -> fp <> "" -> insert_data (Some t) (Some fp) = load t fp.
Proof.
  intros Ht Hfp. unfold insert_data, truthy.
  apply String.eqb_neq in Ht, Hfp. now rewrite Ht, Hfp.
Qed.

(** C3: when the file and the table disagree on the number of columns the
    load stops after reading the catalog: no INSERT is issued, the database
    file is unchanged, the user is told about the mismatch and sent back
    to the entry page. *)
Theorem column_count_mismatch_inserts_nothing (w : world) (t fp : string)
    (df : dataframe) :
  t <> "" -> fp <> "" ->
  files w !! fp = Some df ->
  faults w (length (log w)) = false ->
  length (df_columns df) <> length (table_info (committed w) t) ->
  exists w',
    insert_data (Some t) (Some fp) w = (Ok RedirectIndex, w')
    /\ flashed w' = flashed w ++ [ColumnCountMismatch]
    /\ new_log w w' = [(PragmaTableInfo t, true)]
    /\ committed w' = committed w
    /\ pending w' = None
    /\ open_connections w' = open_connections w.
Proof.
  intros Ht Hfp Hdf Hf Hlen. rewrite insert_data_is_load by assumption.
  unfold load. step_unfold. simpl.
  rewrite execute_pragma by exact Hf. simpl. rewrite Hdf, length_map.
  change (current (set_open (S (open_connections w)) (set_pending None w)))
    with (committed w).
  apply Nat.eqb_neq in Hlen. rewrite Hlen. simpl.
  eexists. split; [reflexivity|]. simpl. unfold new_log. simpl.
  rewrite drop_app_length. auto 10.
Qed.

Lemma column_count_mismatch_inserts_nothing_witness :
  exists w',
    insert_data (Some "internships_2024") (Some "uploads/2024_data.xlsx")
      (ex_world None ex_three_columns) = (Ok RedirectIndex, w')
    /\ flashed w' = [ColumnCountMismatch]
    /\ new_log (ex_world None ex_three_columns) w'
       = [(PragmaTableInfo "internships_2024", true)]
    /\ committed w' = committed (ex_world None ex_three_columns)
    /\ pending w' = None
    /\ open_connections w' = 0%nat.
Proof.
  apply (column_count_mismatch_inserts_nothing
           (ex_world None ex_three_columns) "internships_2024"
           "uploads/2024_data.xlsx" ex_three_columns).
  - discriminate.
  - discriminate.
  - reflexivity.
  - reflexivity.
  - vm_compute. lia.
Defined.

(** C10: a file without rows whose column count matches the table is a
    successful load of zero rows: nothing is flashed, only the catalog is
    read, the database file stays as it was. *)
Theorem empty_dataset_loads_zero_rows (w : world) (t fp : string)
    (df : dataframe) :
  t <> "" -> fp <> "" ->
  files w !! fp = Some df ->
  faults w (length (log w)) = false ->
  df_rows df = [] ->
  length (df_columns df) = length (table_info (committed w) t) ->
  exists w',
    insert_data (Some t) (Some fp) w = (Ok (RedirectSuccess t 0), w')
    /\ flashed w' = flashed w
    /\ new_log w w' = [(PragmaTableInfo t, true)]
    /\ committed w' = committed w
    /\ pending w' = None
    /\ open_connections w' = open_connections w.
Proof.
  intros Ht Hfp Hdf Hf Hrows Hlen. rewrite insert_data_is_load by assumption.
  unfold load. step_unfold. simpl.
  rewrite execute_pragma by exact Hf. simpl. rewrite Hdf, length_map.
  change (current (set_open (S (open_connections w)) (set_pending None w)))
    with (committed w).
  apply Nat.eqb_eq in Hlen. rewrite Hlen, Hrows. simpl.
  eexists. split; [reflexivity|]. simpl. unfold new_log. simpl.
  rewrite drop_app_length. auto 10.
Qed.

Lemma empty_dataset_loads_zero_rows_witness :
  exists w',
    insert_data (Some "internships_2024") (Some "uploads/2024_data.xlsx")
      (ex_world None ex_no_rows)
    = (Ok (RedirectSuccess "internships_2024" 0), w')
    /\ flashed w' = []
    /\ new_log (ex_world None ex_no_rows) w'
       = [(PragmaTableInfo "internships_2024", true)]
    /\ committed w' = committed (ex_world None ex_no_rows)
    /\ pending w' = None
    /\ open_connections w' = 0%nat.
Proof.
  apply (empty_dataset_loads_zero_rows (ex_world None ex_no_rows)
           "internships_2024" "uploads/2024_data.xlsx" ex_no_rows).
  - discriminate.
  - discriminate.
  - reflexivity.
  - reflexivity.
  - reflexivity.
  - reflexivity.
Defined.

Lemma new_log_app (w w' : world) (l : list (statement * bool)) :
  log w' = log w ++ l -> new_log w w' = l.
Proof. intros H. unfold new_log. rewrite H. apply drop_app_length. Qed.

(** C4: when an INSERT of the load fails, the request ends with the
    failure flashed and the user sent back to the entry page (never the
    success page with a count), the database file is what it was before
    the request -- the rows inserted before the failing one included -- and
    no transaction stays open. *)
Theorem failed_insert_aborts_whole_load (w : world) (t fp : option string)
    (s : statement) :
  is_insert s = true ->
  In (s, false) (new_log w (snd (insert_data t fp w))) ->
  fst (insert_data t fp w) = Ok RedirectIndex
  /\ committed (snd (insert_data t fp w)) = committed w
  /\ pending (snd (insert_data t fp w)) = None
  /\ (exists e, flashed (snd (insert_data t fp w))
                = flashed w ++ [InsertFailed e])
  /\ open_connections (snd (insert_data t fp w)) = open_connections w.
Proof.
  intros Hs Hin.
  assert (Hnone : forall w0, ~ In (s, false) (new_log w0 (add_flash MissingArguments w0))).
  { intros w0. unfold new_log. simpl. rewrite drop_all. intros []. }
  unfold insert_data in *.
  destruct t as [t|], fp as [fp|];
    try (exfalso; revert Hin; step_unfold; simpl; apply Hnone).
  destruct (truthy (Some t) && truthy (Some fp));
    [|exfalso; revert Hin; step_unfold; simpl; apply Hnone].
  destruct (load_cases t fp w) as (r & w' & E & Ho & Hp & Hfi & Hout).
  rewrite E in *. simpl in *.
  destruct Hout as [df l Hdf Hlen Hfl Hlog Hins Hok Hn
                   |df Hdf Hlen Hfl Hlog Hc
                   |e Hfl Hc].
  - exfalso. rewrite (new_log_app _ _ _ Hlog) in Hin.
    destruct Hin as [Heq|Hin]; [discriminate|].
    rewrite Forall_forall in Hok. apply list_elem_of_In in Hin.
    specialize (Hok _ Hin). discriminate.
  - exfalso. rewrite (new_log_app _ _ _ Hlog) in Hin.
    destruct Hin as [Heq|[]]. discriminate.
  - repeat split; auto. now exists e.
Qed.

Lemma failed_insert_aborts_whole_load_witness :
  fst (insert_data (Some "internships_2024") (Some "uploads/2024_data.xlsx")
         (ex_world (Some 2%nat) ex_two_rows)) = Ok RedirectIndex
  /\ committed (snd (insert_data (Some "internships_2024")
                       (Some "uploads/2024_data.xlsx")
                       (ex_world (Some 2%nat) ex_two_rows)))
     = committed (ex_world (Some 2%nat) ex_two_rows)
  /\ pending (snd (insert_data (Some "internships_2024")
                     (Some "uploads/2024_data.xlsx")
                     (ex_world (Some 2%nat) ex_two_rows))) = None
  /\ (exists e, flashed (snd (insert_data (Some "internships_2024")
                               (Some "uploads/2024_data.xlsx")
                               (ex_world (Some 2%nat) ex_two_rows)))
                = flashed (ex_world (Some 2%nat) ex_two_rows)
                  ++ [InsertFailed e])
  /\ open_connections (snd (insert_data (Some "internships_2024")
                              (Some "uploads/2024_data.xlsx")
                              (ex_world (Some 2%nat) ex_two_rows)))
     = open_connections (ex_world (Some 2%nat) ex_two_rows).
Proof.
  apply (failed_insert_aborts_whole_load (ex_world (Some 2%nat) ex_two_rows)
           (Some "internships_2024") (Some "uploads/2024_data.xlsx")
           (InsertValues "internships_2024" 2 [SqlNull; SqlNull])).
  - reflexivity.
  - vm_compute. right. right. left. reflexivity.
Defined.





(** C2: two rows, matching column count, no failing statement, and yet no
    count of two: the second row holds the text [inf] under an INTEGER
    column, its conversion raises [OverflowError], the load is abandoned
    after one INSERT and the failure page is shown; the database file
    keeps no row. *)
Theorem overflowing_cell_abandons_load :
  let w := ex_world None ex_overflow_rows in
  let r := insert_data (Some "internships_2024")
             (Some "uploads/2024_data.xlsx") w in
  length (df_rows ex_overflow_rows) = 2%nat
  /\ length (df_columns ex_overflow_rows)
     = length (table_info (committed w) "internships_2024")
  /\ fst r = Ok RedirectIndex
  /\ flashed (snd r) = [InsertFailed OverflowError]
  /\ new_log w (snd r)
     = [(PragmaTableInfo "internships_2024", true);
        (InsertValues "internships_2024" 2 [SqlInt 1; SqlText "x"], true)]
  /\ committed (snd r) = committed w.
Proof. vm_compute. repeat split; reflexivity. Qed.

(** ** Schema builder and connections *)

(** Every path of [insert_data] leaves as many connections open as it
    found, with no transaction open. *)
Lemma insert_data_closes (w : world) (t fp : option string) :
  open_connections (snd (insert_data t fp w)) = open_connections w.
Proof.
  unfold insert_data.
  destruct t as [t|], fp as [fp|]; try reflexivity.
  destruct (truthy (Some t) && truthy (Some fp)); [|reflexivity].
  destruct (load_cases t fp w) as (r & w' & E & Ho & _).
  now rewrite E.
Qed.

(** A successful [create_db] closes its connection as well. *)
Lemma create_table_success_closes (w w' : world) (t fp : string)
    (columns : list (string * string)) (t' fp' : string) :
  create_table t fp columns w = (Ok (RedirectInsertData t' fp'), w') ->
  open_connections w' = open_connections w.
Proof.
  unfold create_table. step_unfold. simpl.
  destruct (execute (DropTableIfExists t) _) as [[r1|e1] w1] eqn:E1.
  2:{ intros [= <-]. }
  destruct (execute (CreateTable t (cols_sql_of columns)) w1)
    as [[r2|e2] w2] eqn:E2.
  2:{ intros [= <-]. }
  intros [= <- <- <-]. simpl.
  assert (Hopen : forall s v (r : res (list (string * string))) v',
             execute s v = (r, v') -> open_connections v' = open_connections v).
  { intros s v r v'. unfold execute.
    destruct (faults v (length (log v))); [now intros [= <- <-]|].
    destruct (run_statement (current v) s) as [[rows db]|e];
      [|now intros [= <- <-]].
    intros [= <- <-]. now destruct (is_insert s || _). }
  rewrite (Hopen _ _ _ _ E2), (Hopen _ _ _ _ E1). reflexivity.
Qed.

(** C9: the error path of [create_db] returns with its connection open.
    With two columns of the same name the CREATE TABLE statement fails,
    the handler flashes the failure and redirects, and the connection that
    [get_db] opened is still open. *)
Theorem create_db_error_leaves_connection_open :
  let r := create_db ex_form_duplicate ex_empty_world in
  fst r = Ok RedirectIndex
  /\ flashed (snd r) = [CreateFailed OperationalError]
  /\ open_connections ex_empty_world = 0%nat
  /\ open_connections (snd r) = 1%nat.
Proof. vm_compute. repeat split; reflexivity. Qed.

(** C8: a column name with a double quote does not survive the round
    trip.  The name is written between double quotes without doubling the
    one inside, the engine reads the identifier [a] followed by the word
    [b] and then finds an unterminated quote: the statement is rejected,
    and the catalog has no column for the table. *)
Theorem quoted_name_breaks_create :
  let r := create_db ex_form_quote ex_empty_world in
  cols_sql_of [(ex_quote_name, TEXT)]
  = dquote +:+ "a" +:+ dquote +:+ "b" +:+ dquote +:+ " TEXT"
  /\ parse_columns (cols_sql_of [(ex_quote_name, TEXT)]) = None
  /\ fst r = Ok RedirectIndex
  /\ flashed (snd r) = [CreateFailed OperationalError]
  /\ table_info (committed (snd r)) "internships_2024" = [].
Proof. vm_compute. repeat split; reflexivity. Qed.

(** ** Binary64 arithmetic *)

Lemma size_log2 (p : positive) : Z.pos (Pos.size p) = Z.log2 (Z.pos p) + 1.
Proof. destruct p; simpl; lia. Qed.

Lemma odd_part_spec (p : positive) :
  is_odd (fst (odd_part p)) = true
  /\ 0 <= snd (odd_part p)
  /\ Z.pos p = Z.pos (fst (odd_part p)) * 2 ^ snd (odd_part p).
Proof.
  induction p as [p IH|p IH|]; simpl.
  - repeat split; lia.
  - destruct (odd_part p) as [m k]. simpl in *.
    destruct IH as (Ho & Hk & Hp). split; [exact Ho|]. split; [lia|].
    rewrite Z.pow_add_r by lia. rewrite Pos2Z.inj_xO, Hp. ring.
  - repeat split; lia.
Qed.


Lemma round_pos_exponent (neg : bool) (n : positive) (e : Z) (sticky : bool)
    (b : bool) (m : positive) (k : Z) :
  round_pos neg n e sticky = FFin b m k -> e <= k.
Proof.
  assert (Hn : forall q e', normalize neg q e' = FFin b m k -> e' <= k).
  { intros q e'. unfold normalize. destruct q as [|p|p]; try discriminate.
    pose proof (odd_part_spec p) as (_ & Hk & _).
    destruct (odd_part p) as [m' k']. simpl in Hk.
    destruct (_ >? 1024); [discriminate|]. intros [= _ _ <-]. lia. }
  unfold round_pos.
  destruct (Z.max (Z.pos (Pos.size n) - 53) (-1074 - e) <=? 0) eqn:Hs.
  - apply Hn.
  - intros H. apply Hn in H. apply Z.leb_gt in Hs. lia.
Qed.




Lemma normalize_valid (neg : bool) (q e : Z) :
  q <= 2 ^ 53 -> -1074 <= e -> valid_float (normalize neg q e) = true.
Proof.
  intros Hq He. unfold normalize. destruct q as [|p|p]; try reflexivity.
  pose proof (odd_part_spec p) as (Ho & Hk & Hp).
  destruct (odd_part p) as [m k]. simpl in *.
  destruct (Z.pos (Pos.size m) + (e + k) >? 1024) eqn:Hov; [reflexivity|].
  rewrite Z.gtb_ltb in Hov. apply Z.ltb_ge in Hov.
  assert (Hm : Z.pos m < 2 ^ 53).
  { assert (Hle : Z.pos m <= Z.pos p).
    { rewrite Hp. assert (0 < 2 ^ k) by (apply Z.pow_pos_nonneg; lia). nia. }
    destruct (Z.eq_dec (Z.pos m) (2 ^ 53)) as [Heq|Hne]; [|lia].
    exfalso. injection Heq as ->. discriminate Ho. }
  apply Z.log2_lt_pow2 in Hm; [|lia].
  simpl. rewrite Ho. simpl.
  rewrite size_log2 in *.
  repeat (apply andb_true_intro; split); apply Z.leb_le; lia.
Qed.

Lemma round_pos_valid (neg : bool) (n : positive) (e : Z) (sticky : bool) :
  valid_float (round_pos neg n e sticky) = true.
Proof.
  unfold round_pos.
  pose proof (Z.log2_spec (Z.pos n) eq_refl) as [_ Hn].
  pose proof (size_log2 n) as Hsz.
  destruct (Z.max (Z.pos (Pos.size n) - 53) (-1074 - e) <=? 0) eqn:Hs.
  - apply Z.leb_le in Hs. apply normalize_valid; [|lia].
    apply Z.lt_le_incl, Z.lt_le_trans with (2 ^ Z.succ (Z.log2 (Z.pos n)));
      [exact Hn|].
    apply Z.pow_le_mono_r; lia.
  - apply Z.leb_gt in Hs.
    set (s := Z.max (Z.pos (Pos.size n) - 53) (-1074 - e)) in *.
    assert (Hq : 0 <= Z.shiftr (Z.pos n) s < 2 ^ 53).
    { rewrite Z.shiftr_div_pow2 by lia.
      assert (0 < 2 ^ s) by (apply Z.pow_pos_nonneg; lia).
      split; [apply Z.div_pos; lia|].
      apply Z.div_lt_upper_bound; [lia|].
      rewrite <- Z.pow_add_r by lia.
      apply Z.lt_le_trans with (2 ^ Z.succ (Z.log2 (Z.pos n))); [exact Hn|].
      apply Z.pow_le_mono_r; lia. }
    apply normalize_valid; [|lia].
    destruct (_ || _); lia.
Qed.

Lemma float_of_Z_valid (z : Z) : valid_float (float_of_Z z) = true.
Proof. destruct z; simpl; auto using round_pos_valid. Qed.







Lemma forallb_of_Forall {A} (p : A -> bool) (l : list A) :
  Forall (fun x => p x = true) l -> forallb p l = true.
Proof. induction 1 as [|x l Hx _ IH]; simpl; [|rewrite Hx, IH]; reflexivity. Qed.

Lemma forallb_false_of_Exists {A} (p : A -> bool) (l : list A) :
  Exists (fun x => p x = false) l -> forallb p l = false.
Proof.
  induction 1 as [x l Hx|x l _ IH]; simpl; [now rewrite Hx|].
  rewrite IH. apply andb_false_r.
Qed.






(** A column with an infinite value gets no type at all: the cast
    raises, and [upload] reports a failure. *)
Lemma infinite_value_raises :
  infer_data_type [CFloat ex_1_5; CFloat (FInf false)] = Raise ValueError
  /\ infer_data_type [CStr "inf"] = Raise ValueError.
Proof. split; reflexivity. Qed.

(** ** Reading back the column list written by [create_db] *)

Lemma list_ascii_app (s t : string) :
  list_ascii_of_string (s +:+ t)
  = list_ascii_of_string s ++ list_ascii_of_string t.
Proof.
  induction s as [|c s IH]; [reflexivity|].
  rewrite append_cons. simpl. now rewrite IH.
Qed.

Lemma cols_sql_text (columns : list (string * string)) :
  list_ascii_of_string (cols_sql_of columns) = columns_text columns.
Proof.
  unfold cols_sql_of. induction columns as [|col rest IH]; [reflexivity|].
  assert (Hcol : list_ascii_of_string
                   (dquote +:+ fst col +:+ dquote +:+ " " +:+ snd col)
                 = column_text col).
  { unfold column_text. rewrite !list_ascii_app. reflexivity. }
  destruct rest as [|col' rest]; [exact Hcol|].
  change (list_ascii_of_string
            ((dquote +:+ fst col +:+ dquote +:+ " " +:+ snd col)
             +:+ ", " +:+ join ", "
                   (map (fun c => dquote +:+ fst c +:+ dquote +:+ " " +:+ snd c)
                      (col' :: rest)))
          = column_text col
            ++ ascii_of_N 44 :: ascii_of_N 32 :: columns_text (col' :: rest)).
  rewrite list_ascii_app, Hcol, list_ascii_app, IH. reflexivity.
Qed.

Lemma read_quoted_name (n : string) (rest : list ascii) :
  string_forall (fun c => negb (is_dquote c)) n = true ->
  match rest with c :: _ => is_dquote c = false | [] => True end ->
  read_quoted (list_ascii_of_string n ++ ascii_of_N 34 :: rest)
  = Some (list_ascii_of_string n, rest).
Proof.
  intros Hn Hrest. induction n as [|c n IH].
  - simpl. destruct rest as [|c2 rest]; [reflexivity|].
    change (is_dquote (ascii_of_N 34)) with true. cbn iota.
    now rewrite Hrest.
  - simpl in Hn. apply andb_prop in Hn as [Hc Hn].
    apply negb_true_iff in Hc.
    change (list_ascii_of_string (String c n) ++ ascii_of_N 34 :: rest)
      with (c :: (list_ascii_of_string n ++ ascii_of_N 34 :: rest)).
    cbn [read_quoted]. rewrite Hc, (IH Hn). reflexivity.
Qed.

Lemma read_word_type (ty : string) (rest : list ascii) :
  string_forall is_word_char ty = true ->
  match rest with c :: _ => is_word_char c = false | [] => True end ->
  read_word (list_ascii_of_string ty ++ rest)
  = (list_ascii_of_string ty, rest).
Proof.
  intros Hty Hrest. induction ty as [|c ty IH].
  - simpl. destruct rest as [|c2 rest]; [reflexivity|].
    cbn [read_word]. now rewrite Hrest.
  - simpl in Hty. apply andb_prop in Hty as [Hc Hty].
    change (list_ascii_of_string (String c ty) ++ rest)
      with (c :: (list_ascii_of_string ty ++ rest)).
    cbn [read_word]. rewrite Hc, (IH Hty). reflexivity.
Qed.

Lemma word_char_not_space (c : ascii) :
  is_word_char c = true -> is_space c = false.
Proof. destruct c as [[] [] [] [] [] [] [] []]; vm_compute; congruence. Qed.

Lemma skip_spaces_word (ty : string) (rest : list ascii) :
  string_forall is_word_char ty = true ->
  match rest with c :: _ => is_space c = false | [] => True end ->
  skip_spaces (list_ascii_of_string ty ++ rest)
  = list_ascii_of_string ty ++ rest.
Proof.
  intros Hty Hrest. destruct ty as [|c ty].
  - simpl. destruct rest as [|c2 rest]; [reflexivity|].
    cbn [skip_spaces]. now rewrite Hrest.
  - simpl in Hty. apply andb_prop in Hty as [Hc _].
    apply word_char_not_space in Hc.
    change (list_ascii_of_string (String c ty) ++ rest)
      with (c :: (list_ascii_of_string ty ++ rest)).
    cbn [skip_spaces]. now rewrite Hc.
Qed.

Lemma read_column_text (lead : bool) (col : string * string)
    (rest : list ascii) :
  plain_column col = true ->
  rest = [] \/ (exists r, rest = ascii_of_N 44 :: r) ->
  read_column ((if lead then [ascii_of_N 32] else [])
               ++ column_text col ++ rest)
  = Some (fst col, snd col, rest).
Proof.
  intros Hcol Hrest. destruct col as [n ty]. unfold plain_column in Hcol.
  simpl in Hcol. apply andb_prop in Hcol as [Hn Hty].
  assert (Hsp : match rest with c :: _ => is_space c = false | [] => True end)
    by (destruct Hrest as [->|[r ->]]; [exact I|reflexivity]).
  assert (Hwd : match rest with c :: _ => is_word_char c = false | [] => True end)
    by (destruct Hrest as [->|[r ->]]; [exact I|reflexivity]).
  assert (Hskip : skip_spaces rest = rest)
    by (destruct Hrest as [->|[r ->]]; reflexivity).
  unfold read_column, column_text. cbn [fst snd].
  replace (skip_spaces ((if lead then [ascii_of_N 32] else [])
             ++ (ascii_of_N 34 :: list_ascii_of_string n
                   ++ ascii_of_N 34 :: ascii_of_N 32 :: list_ascii_of_string ty)
             ++ rest))
    with (ascii_of_N 34 :: (list_ascii_of_string n
            ++ ascii_of_N 34 :: ascii_of_N 32
                 :: (list_ascii_of_string ty ++ rest))).
  2:{ destruct lead; cbn [app skip_spaces];
        change (is_space (ascii_of_N 34)) with false;
        try change (is_space (ascii_of_N 32)) with true; cbn iota;
        rewrite <- !app_assoc; reflexivity. }
  change (is_dquote (ascii_of_N 34)) with true. cbn iota.
  rewrite read_quoted_name by (try exact Hn; reflexivity).
  cbn [skip_spaces]. change (is_space (ascii_of_N 32)) with true. cbn iota.
  rewrite skip_spaces_word by assumption.
  rewrite read_word_type by assumption.
  rewrite Hskip, !string_of_list_ascii_of_string. reflexivity.
Qed.

Lemma read_columns_text (columns : list (string * string)) :
  Forall (fun col => plain_column col = true) columns ->
  columns <> [] ->
  forall (fuel : nat) (lead : bool),
  (length columns <= fuel)%nat ->
  read_columns fuel ((if lead then [ascii_of_N 32] else [])
                     ++ columns_text columns)
  = Some columns.
Proof.
  induction 1 as [|col rest Hcol Hrest IH]; [congruence|].
  intros _ fuel lead Hfuel. destruct fuel as [|fuel]; [simpl in Hfuel; lia|].
  simpl in Hfuel. destruct rest as [|col' rest].
  - cbn [columns_text read_columns].
    rewrite <- (app_nil_r (column_text col)).
    rewrite read_column_text by auto. destruct col; reflexivity.
  - change (columns_text (col :: col' :: rest))
      with (column_text col
            ++ ascii_of_N 44 :: ascii_of_N 32 :: columns_text (col' :: rest)).
    cbn [read_columns]. rewrite read_column_text by eauto.
    change (is_char 44 (ascii_of_N 44)) with true. cbn iota.
    change (ascii_of_N 32 :: columns_text (col' :: rest))
      with ([ascii_of_N 32] ++ columns_text (col' :: rest)).
    rewrite (IH ltac:(discriminate) fuel true) by (simpl in *; lia).
    destruct col; reflexivity.
Qed.

Lemma columns_text_length (columns : list (string * string)) :
  (length columns <= length (columns_text columns))%nat.
Proof.
  induction columns as [|col rest IH]; [reflexivity|].
  destruct rest as [|col' rest].
  - simpl. lia.
  - change (columns_text (col :: col' :: rest))
      with (column_text col
            ++ ascii_of_N 44 :: ascii_of_N 32 :: columns_text (col' :: rest)).
    rewrite length_app. cbn [length] in *. lia.
Qed.

Lemma parse_columns_written (columns : list (string * string)) :
  Forall (fun col => plain_column col = true) columns ->
  columns <> [] ->
  parse_columns (cols_sql_of columns) = Some columns.
Proof.
  intros Hplain Hne. unfold parse_columns. rewrite cols_sql_text.
  apply (read_columns_text columns Hplain Hne _ false).
  pose proof (columns_text_length columns). lia.
Qed.

(** For names without a double quote that differ beyond letter case, and
    one-word types, creating the table and reading the catalog returns the
    columns as given. *)
Lemma create_then_table_info (w : world) (t fp : string)
    (columns : list (string * string)) :
  Forall (fun col => plain_column col = true) columns ->
  columns <> [] ->
  columns_accepted columns = true ->
  (forall k, faults w k = false) ->
  exists w',
    create_table t fp columns w = (Ok (RedirectInsertData t fp), w')
    /\ table_info (committed w') t = columns
    /\ open_connections w' = open_connections w.
Proof.
  intros Hplain Hne Hacc Hf. unfold create_table. step_unfold. simpl.
  unfold execute at 1. simpl. rewrite Hf. simpl.
  unfold execute. simpl. rewrite Hf. simpl.
  unfold current. simpl.
  rewrite lookup_delete_eq, parse_columns_written, Hacc by assumption.
  simpl. eexists. split; [reflexivity|]. simpl.
  unfold table_info. now rewrite lookup_insert_eq.
Qed.

(** * Further properties of the handlers *)

(** ** Cell conversion *)

(** X1: whatever the declared type and the cell, the conversion of a cell
    either gives a value or raises [OverflowError]; no other exception
    leaves the cell loop. *)
Theorem cell_conversion_raises_only_overflow (target_type : string)
    (value : cell) (e : exn) :
  sanitize target_type value = Raise e -> e = OverflowError.
Proof. apply sanitize_raises_only_overflow. Qed.

Lemma cell_conversion_raises_only_overflow_witness :
  OverflowError = OverflowError.
Proof.
  apply (cell_conversion_raises_only_overflow "INTEGER" (CStr "inf")).
  reflexivity.
Defined.

(** X2: the type applied to the cell at a position is the declared type
    of the table column at the same position, although the code finds it
    through the column name: the names of a table are distinct. *)
Theorem cell_types_follow_positions (info : list (string * string))
    (row : list cell) :
  List.NoDup (map fst info) ->
  sanitize_row (map fst info) (dict_of info) 0 row
  = sanitize_aligned (map snd info) row.
Proof. apply sanitize_row_aligned. Qed.

Lemma cell_types_follow_positions_witness :
  sanitize_row ["a"; "b"] (dict_of [("a", INTEGER); ("b", TEXT)]) 0
    [CStr "7.9"; CInt 3]
  = sanitize_aligned [INTEGER; TEXT] [CStr "7.9"; CInt 3].
Proof.
  apply (cell_types_follow_positions [("a", INTEGER); ("b", TEXT)]).
  repeat constructor; simpl; intuition discriminate.
Defined.

Lemma float_of_Z_small (z : Z) :
  Z.abs z < 2 ^ 53 ->
  is_inf (float_of_Z z) = false /\ int_of_float (float_of_Z z) = Ok z.
Proof.
  intros Hz.
  assert (Hpos : forall (neg : bool) (p : positive),
            Z.pos p < 2 ^ 53 ->
            exists m k, round_pos neg p 0 false = FFin neg m k
                        /\ 0 <= k /\ Z.pos p = Z.pos m * 2 ^ k).
  { intros neg p Hp. unfold round_pos.
    pose proof (size_log2 p) as Hsz.
    assert (Hlog : Z.log2 (Z.pos p) < 53) by (apply Z.log2_lt_pow2; lia).
    replace (Z.max (Z.pos (Pos.size p) - 53) (-1074 - 0) <=? 0) with true
      by (symmetry; apply Z.leb_le; lia).
    unfold normalize.
    pose proof (odd_part_spec p) as (Ho & Hk & Hv).
    destruct (odd_part p) as [m k]. simpl in Ho, Hk, Hv.
    assert (Hsm : Z.pos (Pos.size m) + k = Z.pos (Pos.size p)).
    { rewrite !size_log2, Hv, Z.log2_mul_pow2 by lia. lia. }
    replace (Z.pos (Pos.size m) + (0 + k) >? 1024) with false
      by (symmetry; rewrite Z.gtb_ltb; apply Z.ltb_ge; lia).
    exists m, (0 + k). repeat split; [lia|]. now rewrite Z.add_0_l. }
  destruct z as [|p|p]; simpl.
  - split; reflexivity.
  - destruct (Hpos false p Hz) as (m & k & -> & Hk & Hv). simpl.
    split; [reflexivity|]. rewrite Z.shiftl_mul_pow2 by exact Hk.
    now rewrite <- Hv.
  - destruct (Hpos true p Hz) as (m & k & -> & Hk & Hv). simpl.
    split; [reflexivity|]. rewrite Z.shiftl_mul_pow2 by exact Hk.
    rewrite <- Hv. reflexivity.
Qed.

(** X3: an integer of magnitude below [2^53] goes through
    [int(float(value))] unchanged: under an INTEGER column it is stored as
    itself. *)
Theorem small_integer_kept_by_integer_column (z : Z) :
  Z.abs z < 2 ^ 53 -> sanitize "INTEGER" (CInt z) = Ok (SqlInt z).
Proof.
  intros Hz. destruct (float_of_Z_small z Hz) as [Hinf Hint].
  unfold sanitize, convert. simpl. unfold float_of_int.
  rewrite Hinf. simpl. now rewrite Hint.
Qed.

Lemma small_integer_kept_by_integer_column_witness :
  sanitize "INTEGER" (CInt (-2024)) = Ok (SqlInt (-2024)).
Proof.
  apply (small_integer_kept_by_integer_column (-2024)). reflexivity.
Defined.

(** X4: an odd integer of magnitude above [2^53] is never stored as
    itself under an INTEGER column: the passage through [float] rounds it
    (or, beyond the binary64 range, raises). *)
Theorem large_odd_integer_not_kept (z : Z) :
  Z.odd z = true -> 2 ^ 53 < Z.abs z ->
  sanitize "INTEGER" (CInt z) <> Ok (SqlInt z).
Proof.
  intros Hodd Hbig. unfold sanitize, convert. simpl. unfold float_of_int.
  destruct (is_inf (float_of_Z z)) eqn:Hinf; [discriminate|].
  pose proof (float_of_Z_valid z) as Hv.
  destruct (float_of_Z z) as [| |b|b m k] eqn:E; simpl; try discriminate.
  - intros [= <-]. simpl in Hbig. lia.
  - assert (Hk : 0 <= k).
    { destruct z as [|p|p]; simpl in E; try discriminate;
        now apply round_pos_exponent in E. }
    simpl in Hv. apply andb_prop in Hv as [Hv _].
    apply andb_prop in Hv as [Hv _]. apply andb_prop in Hv as [_ Hsize].
    apply Z.leb_le in Hsize. rewrite size_log2 in Hsize.
    assert (Hm : Z.pos m < 2 ^ 53) by (apply Z.log2_lt_pow2; lia).
    rewrite Z.shiftl_mul_pow2 by exact Hk.
    intros [= Hz].
    assert (Hk0 : k = 0).
    { destruct (Z.eq_dec k 0) as [|Hne]; [assumption|exfalso].
      assert (Heven : Z.odd (Z.pos m * 2 ^ k) = false).
      { rewrite Z.odd_mul, Z.odd_pow by lia. apply andb_false_r. }
      destruct b; subst z; [rewrite Z.odd_opp in Hodd|]; congruence. }
    subst k. rewrite Z.mul_1_r in Hz. destruct b; subst z; simpl in Hbig; lia.
Qed.

Lemma large_odd_integer_not_kept_witness :
  sanitize "INTEGER" (CInt 9007199254740993) <> Ok (SqlInt 9007199254740993).
Proof.
  apply (large_odd_integer_not_kept 9007199254740993); reflexivity.
Defined.

(** ** Row loader *)



(** X6: [insert_data] always answers with a redirect, never with an
    unhandled exception, and on every path it leaves as many connections
    open as it found. *)
Theorem insert_data_answers_and_closes (w : world) (t fp : option string) :
  (exists r, fst (insert_data t fp w) = Ok r)
  /\ open_connections (snd (insert_data t fp w)) = open_connections w.
Proof.
  split; [|apply insert_data_closes].
  unfold insert_data.
  destruct t as [t|], fp as [fp|]; try (eexists; reflexivity).
  destruct (truthy (Some t) && truthy (Some fp)); [|eexists; reflexivity].
  destruct (load_cases t fp w) as (r & w' & E & _).
  rewrite E. now exists r.
Qed.

(** X7: a load is all or nothing for the database file: either
    [insert_data] ends on the success page, or it ends on the entry page
    and the database file is exactly what it was before the request. *)
Theorem insert_data_all_or_nothing (w : world) (t fp : option string) :
  (exists t' n, fst (insert_data t fp w) = Ok (RedirectSuccess t' n))
  \/ (fst (insert_data t fp w) = Ok RedirectIndex
      /\ committed (snd (insert_data t fp w)) = committed w).
Proof.
  unfold insert_data.
  destruct t as [t|], fp as [fp|]; try (right; split; reflexivity).
  destruct (truthy (Some t) && truthy (Some fp));
    [|right; split; reflexivity].
  destruct (load_cases t fp w) as (r & w' & E & _ & _ & _ & Hout).
  rewrite E. simpl.
  destruct Hout as [df l _ _ _ _ _ _ _|df _ _ _ _ Hc|e _ Hc].
  - left. eauto.
  - right. auto.
  - right. auto.
Qed.

(** X8: the number shown on the success page is the number of rows of
    the uploaded file, and as many INSERT statements ran, all of them
    successfully, after the one catalog read; nothing was flashed. *)
Theorem success_count_is_row_count (w : world) (t fp t' : string) (n : nat) :
  fst (insert_data (Some t) (Some fp) w) = Ok (RedirectSuccess t' n) ->
  t' = t
  /\ exists df l,
       files w !! fp = Some df
       /\ n = length (df_rows df)
       /\ new_log w (snd (insert_data (Some t) (Some fp) w))
          = (PragmaTableInfo t, true) :: l
       /\ length l = n
       /\ Forall (fun p => is_insert (fst p) = true /\ snd p = true) l
       /\ flashed (snd (insert_data (Some t) (Some fp) w)) = flashed w.
Proof.
  unfold insert_data.
  destruct (truthy (Some t) && truthy (Some fp)); [|discriminate].
  destruct (load_cases t fp w) as (r & w' & E & _ & _ & _ & Hout).
  rewrite E. simpl.
  destruct Hout as [df l Hdf _ Hfl Hlog Hins Hok Hn| |]; try discriminate.
  intros [= <- <-]. split; [reflexivity|].
  exists df, l. repeat split; auto.
  - now apply new_log_app.
  - rewrite Forall_forall in *. intros p Hp. split; auto.
Qed.

Lemma success_count_is_row_count_witness :
  "internships_2024" = "internships_2024"
  /\ exists df l,
       files (ex_world None ex_two_rows) !! "uploads/2024_data.xlsx" = Some df
       /\ 2%nat = length (df_rows df)
       /\ new_log (ex_world None ex_two_rows)
            (snd (insert_data (Some "internships_2024")
                    (Some "uploads/2024_data.xlsx")
                    (ex_world None ex_two_rows)))
          = (PragmaTableInfo "internships_2024", true) :: l
       /\ length l = 2%nat
       /\ Forall (fun p => is_insert (fst p) = true /\ snd p = true) l
       /\ flashed (snd (insert_data (Some "internships_2024")
                          (Some "uploads/2024_data.xlsx")
                          (ex_world None ex_two_rows)))
          = flashed (ex_world None ex_two_rows).
Proof.
  apply (success_count_is_row_count (ex_world None ex_two_rows)
           "internships_2024" "uploads/2024_data.xlsx").
  reflexivity.
Defined.

(** X9: when the uploaded file cannot be read (it is absent, or not a
    workbook), [insert_data] has only read the catalog: the failure is
    flashed, the connection closed and the database file unchanged. *)
Theorem unreadable_file_fails_cleanly (w : world) (t fp : string) :
  t <> "" -> fp <> "" ->
  files w !! fp = None ->
  faults w (length (log w)) = false ->
  exists w',
    insert_data (Some t) (Some fp) w = (Ok RedirectIndex, w')
    /\ flashed w' = flashed w ++ [InsertFailed IOError]
    /\ new_log w w' = [(PragmaTableInfo t, true)]
    /\ committed w' = committed w
    /\ open_connections w' = open_connections w.
Proof.
  intros Ht Hfp Hdf Hf. rewrite insert_data_is_load by assumption.
  unfold load. step_unfold. simpl.
  rewrite execute_pragma by exact Hf. simpl. rewrite Hdf. simpl.
  eexists. split; [reflexivity|]. simpl. unfold new_log. simpl.
  rewrite drop_app_length. auto.
Qed.

Lemma unreadable_file_fails_cleanly_witness :
  exists w',
    insert_data (Some "internships_2024") (Some "uploads/other.xlsx")
      (ex_world None ex_two_rows) = (Ok RedirectIndex, w')
    /\ flashed w' = [InsertFailed IOError]
    /\ new_log (ex_world None ex_two_rows) w'
       = [(PragmaTableInfo "internships_2024", true)]
    /\ committed w' = committed (ex_world None ex_two_rows)
    /\ open_connections w' = 0%nat.
Proof.
  apply (unreadable_file_fails_cleanly (ex_world None ex_two_rows)
           "internships_2024" "uploads/other.xlsx").
  - discriminate.
  - discriminate.
  - reflexivity.
  - reflexivity.
Defined.

(** X10: loading into a table that does not exist is reported as a
    column-count mismatch: the catalog lists no column for it, so any file
    with at least one column stops at the length test, before any INSERT. *)
Theorem missing_table_reported_as_mismatch (w : world) (t fp : string)
    (df : dataframe) :
  t <> "" -> fp <> "" ->
  files w !! fp = Some df ->
  faults w (length (log w)) = false ->
  committed w !! t = None ->
  df_columns df <> [] ->
  exists w',
    insert_data (Some t) (Some fp) w = (Ok RedirectIndex, w')
    /\ flashed w' = flashed w ++ [ColumnCountMismatch]
    /\ new_log w w' = [(PragmaTableInfo t, true)]
    /\ committed w' = committed w.
Proof.
  intros Ht Hfp Hdf Hf Hno Hcols. rewrite insert_data_is_load by assumption.
  unfold load. step_unfold. simpl.
  rewrite execute_pragma by exact Hf. simpl. rewrite Hdf, length_map.
  change (current (set_open (S (open_connections w)) (set_pending None w)))
    with (committed w).
  unfold table_info. rewrite Hno.
  destruct (df_columns df) as [|c cols] eqn:Ec; [congruence|]. simpl.
  eexists. split; [reflexivity|]. simpl. unfold new_log. simpl.
  rewrite drop_app_length. auto.
Qed.

Lemma missing_table_reported_as_mismatch_witness :
  exists w',
    insert_data (Some "internships_1999") (Some "uploads/2024_data.xlsx")
      (ex_world None ex_two_rows) = (Ok RedirectIndex, w')
    /\ flashed w' = [ColumnCountMismatch]
    /\ new_log (ex_world None ex_two_rows) w'
       = [(PragmaTableInfo "internships_1999", true)]
    /\ committed w' = committed (ex_world None ex_two_rows).
Proof.
  apply (missing_table_reported_as_mismatch (ex_world None ex_two_rows)
           "internships_1999" "uploads/2024_data.xlsx" ex_two_rows).
  - discriminate.
  - discriminate.
  - reflexivity.
  - reflexivity.
  - reflexivity.
  - discriminate.
Defined.

(** ** Schema builder *)



(** X12: when the engine rejects the CREATE TABLE statement, the table
    that had the name is already dropped and stays dropped, the failure is
    flashed, and the connection is left open. *)
Theorem rejected_create_loses_table (w : world) (t fp : string)
    (columns : list (string * string)) (e : exn) :
  (forall k, faults w k = false) ->
  run_statement (delete t (committed w)) (CreateTable t (cols_sql_of columns))
  = Raise e ->
  exists w',
    create_table t fp columns w = (Ok RedirectIndex, w')
    /\ committed w' = delete t (committed w)
    /\ flashed w' = flashed w ++ [CreateFailed e]
    /\ open_connections w' = S (open_connections w).
Proof.
  intros Hf Hrun. unfold create_table. step_unfold. simpl.
  unfold execute at 1. simpl. rewrite Hf. simpl.
  unfold execute. simpl. rewrite Hf.
  unfold current. simpl. simpl in Hrun. rewrite Hrun. simpl.
  eexists. split; [reflexivity|]. simpl. auto.
Qed.

Lemma rejected_create_loses_table_witness :
  exists w',
    create_table "internships_2024" "uploads/2024_data.xlsx"
      [("a", INTEGER); ("A", TEXT)] (ex_world None ex_two_rows)
    = (Ok RedirectIndex, w')
    /\ committed w'
       = delete "internships_2024" (committed (ex_world None ex_two_rows))
    /\ flashed w' = [CreateFailed OperationalError]
    /\ open_connections w' = 1%nat.
Proof.
  apply (rejected_create_loses_table (ex_world None ex_two_rows)
           "internships_2024" "uploads/2024_data.xlsx"
           [("a", INTEGER); ("A", TEXT)] OperationalError).
  - reflexivity.
  - reflexivity.
Defined.

(** X13: a confirmation form without a first column name creates
    nothing: the missing information is flashed and the request neither
    opens a connection nor runs a statement, whatever else the form
    holds. *)
Theorem create_db_without_columns (w : world) (form : gmap string string) :
  form !! "column_name_0" = None ->
  create_db form w = (Ok RedirectIndex, add_flash MissingSchemaInfo w).
Proof.
  intros Hno. unfold create_db. cbn [collect_columns].
  change ("column_name_" +:+ str_of_int (Z.of_nat 0)) with "column_name_0".
  rewrite Hno.
  destruct (form !! "filepath"), (form !! "year"); try reflexivity.
  rewrite bool_decide_eq_true_2 by reflexivity.
  now rewrite andb_false_r.
Qed.

Lemma create_db_without_columns_witness :
  create_db (<["year" := "2024"]> ∅) ex_empty_world
  = (Ok RedirectIndex, add_flash MissingSchemaInfo ex_empty_world).
Proof.
  apply (create_db_without_columns ex_empty_world (<["year" := "2024"]> ∅)).
  reflexivity.
Defined.

(** X14: a first column name without its type field is a bad request:
    the lookup fails before the handler's [try], nothing is flashed and the
    world is untouched. *)
Theorem create_db_name_without_type (w : world) (form : gmap string string)
    (name : string) :
  form !! "column_name_0" = Some name ->
  form !! "column_type_0" = None ->
  create_db form w = (Ok BadRequest, w).
Proof.
  intros Hname Hty. unfold create_db. cbn [collect_columns].
  change ("column_name_" +:+ str_of_int (Z.of_nat 0)) with "column_name_0".
  change ("column_type_" +:+ str_of_int (Z.of_nat 0)) with "column_type_0".
  now rewrite Hname, Hty.
Qed.

Lemma create_db_name_without_type_witness :
  create_db (<["column_name_0" := "a"]> ∅) ex_empty_world
  = (Ok BadRequest, ex_empty_world).
Proof.
  apply (create_db_name_without_type ex_empty_world
           (<["column_name_0" := "a"]> ∅) "a"); reflexivity.
Defined.

(** ** Column analyzer *)

Lemma clean_column_unchanged (col : string) :
  string_forall (fun c => negb (forbidden_char c)) col = true ->
  clean_column col = col.
Proof.
  induction col as [|c col IH]; [reflexivity|].
  simpl. intros H. apply andb_prop in H as [Hc Hcol].
  rewrite clean_column_cons, (IH Hcol).
  assert (Hchar : spec_clean_char c = String c "").
  { revert Hc. destruct c as [[] [] [] [] [] [] [] []]; vm_compute;
      congruence. }
  now rewrite Hchar.
Qed.

Lemma clean_column_allowed (col : string) :
  string_forall (fun c => negb (forbidden_char c)) (clean_column col) = true.
Proof.
  induction col as [|c col IH]; [reflexivity|].
  now rewrite clean_column_cons, string_forall_app, spec_clean_char_allowed.
Qed.

(** X15: a name without space, [.], [(], [)] and [/] is its own cleaned
    name. *)
Theorem clean_column_keeps_clean_names (col : string) :
  string_forall (fun c => negb (forbidden_char c)) col = true ->
  clean_column col = col.
Proof. apply clean_column_unchanged. Qed.

Lemma clean_column_keeps_clean_names_witness :
  clean_column "Start_Date" = "Start_Date".
Proof. apply (clean_column_keeps_clean_names "Start_Date"). reflexivity. Defined.

(** X16: cleaning is idempotent: cleaning a cleaned name changes
    nothing. *)
Theorem clean_column_idempotent (col : string) :
  clean_column (clean_column col) = clean_column col.
Proof. apply clean_column_unchanged, clean_column_allowed. Qed.

Lemma infer_data_type_result (s : list cell) (ty : string) :
  infer_data_type s = Ok ty -> ty = INTEGER \/ ty = REAL \/ ty = TEXT.
Proof.
  unfold infer_data_type.
  destruct (negb _ && _); [|intros [= <-]; auto].
  destruct (astype_int _) as [l|e]; simpl; [|discriminate].
  destruct (eq_all _ l); intros [= <-]; auto.
Qed.

Lemma schema_info_of_spec (df : dataframe) (cols : list string)
    (l : list column_schema) :
  schema_info_of df cols = Ok l ->
  map original l = cols
  /\ map cleaned l = map clean_column cols
  /\ Forall (fun cs => infer_data_type (df_col df (original cs)) = Ok (type cs)
                       /\ (type cs = INTEGER \/ type cs = REAL
                           \/ type cs = TEXT)) l.
Proof.
  revert l. induction cols as [|col cols IH]; intros l; simpl.
  - intros [= <-]. repeat split. constructor.
  - destruct (infer_data_type (df_col df col)) as [ty|e] eqn:Ety; simpl;
      [|discriminate].
    destruct (schema_info_of df cols) as [tl|e]; simpl; [|discriminate].
    intros [= <-]. destruct (IH tl eq_refl) as (Ho & Hc & Hty).
    simpl. rewrite Ho, Hc. repeat split.
    constructor; [|exact Hty]. simpl. split; [exact Ety|].
    now apply infer_data_type_result in Ety.
Qed.

(** X17: when the analysis of [upload] succeeds, the proposed schema has
    one entry per column of the file, in the file's order, each with the
    original name, its cleaned name, and the type that [infer_data_type]
    gives its cells, which is one of INTEGER, REAL and TEXT. *)
Theorem schema_info_follows_columns (df : dataframe)
    (l : list column_schema) :
  schema_info df = Ok l ->
  map original l = df_columns df
  /\ map cleaned l = map clean_column (df_columns df)
  /\ Forall (fun cs => infer_data_type (df_col df (original cs)) = Ok (type cs)
                       /\ (type cs = INTEGER \/ type cs = REAL
                           \/ type cs = TEXT)) l.
Proof. apply schema_info_of_spec. Qed.

Lemma schema_info_follows_columns_witness :
  map original
    [ColumnSchema "a" "a" TEXT; ColumnSchema "b" "b" TEXT]
  = df_columns ex_two_rows
  /\ map cleaned
       [ColumnSchema "a" "a" TEXT; ColumnSchema "b" "b" TEXT]
     = map clean_column (df_columns ex_two_rows)
  /\ Forall (fun cs =>
               infer_data_type (df_col ex_two_rows (original cs))
               = Ok (type cs)
               /\ (type cs = INTEGER \/ type cs = REAL \/ type cs = TEXT))
       [ColumnSchema "a" "a" TEXT; ColumnSchema "b" "b" TEXT].
Proof.
  apply (schema_info_follows_columns ex_two_rows). reflexivity.
Defined.

Lemma not_all_ints (d : list cell) :
  Exists (fun c => is_int_cell c = false) d -> forallb is_int_cell d = false.
Proof. apply forallb_false_of_Exists. Qed.


(** X18: a column whose non-missing values all read as numbers, one of
    them infinite (a cell that is not an integer object), gets no type:
    the cast to integers raises [ValueError] out of [infer_data_type]. *)
Theorem infinite_value_fails_inference (s : list cell) :
  Forall (fun c => is_nan (coerce_numeric c) = false) (dropna s) ->
  Exists (fun c => is_int_cell c = false /\ is_inf (coerce_numeric c) = true)
         (dropna s) ->
  infer_data_type s = Raise ValueError.
Proof.
  intros Hnum Hinf. unfold infer_data_type, to_numeric.
  rewrite not_all_ints
    by (eapply Exists_impl; [exact Hinf|]; intros c [Hc _]; exact Hc).
  set (l := map coerce_numeric (dropna s)).
  assert (Hempty : series_empty (FloatSeries l) = false).
  { unfold l. destruct (dropna s); [inversion Hinf|reflexivity]. }
  assert (Hnotna : notna_all (FloatSeries l) = true).
  { simpl. apply forallb_of_Forall, Forall_fmap.
    eapply Forall_impl; [exact Hnum|]. intros c Hc. simpl. now rewrite Hc. }
  rewrite Hempty, Hnotna. cbn [negb andb astype_int].
  rewrite forallb_false_of_Exists; [reflexivity|].
  apply Exists_fmap. eapply Exists_impl; [exact Hinf|].
  intros c [_ Hc]. simpl. now destruct (coerce_numeric c).
Qed.

Lemma infinite_value_fails_inference_witness :
  infer_data_type [CFloat ex_1_5; CMissing; CStr "-Infinity"]
  = Raise ValueError.
Proof.
  apply (infinite_value_fails_inference
           [CFloat ex_1_5; CMissing; CStr "-Infinity"]).
  - repeat constructor.
  - apply Exists_cons_tl, Exists_cons_hd. split; reflexivity.
Defined.

(** X19: one column that fails inference fails the whole analysis of
    [upload]: no schema is proposed for any column. *)
Theorem failing_column_fails_schema (df : dataframe) :
  Exists (fun col => exists e, infer_data_type (df_col df col) = Raise e)
         (df_columns df) ->
  exists e, schema_info df = Raise e.
Proof.
  unfold schema_info. generalize (df_columns df) as cols.
  induction 1 as [col cols [e He]|col cols _ [e IH]]; simpl.
  - rewrite He. now exists e.
  - destruct (infer_data_type (df_col df col)) as [ty|e']; simpl;
      [|now exists e'].
    rewrite IH. now exists e.
Qed.

Lemma failing_column_fails_schema_witness :
  exists e,
    schema_info (DataFrame ["a"; "b"] [[CInt 1; CStr "inf"]]) = Raise e.
Proof.
  apply (failing_column_fails_schema
           (DataFrame ["a"; "b"] [[CInt 1; CStr "inf"]])).
  apply Exists_cons_tl, Exists_cons_hd. exists ValueError. reflexivity.
Defined.



(** ** The two readers of numerals

    [pd.to_numeric] and [float] differ on digit-group underscores only:
    what the analyzer reads as a number, the loader reads as the same
    number. *)



















(** ** From the analysis to the loaded table *)












(** ** Reading the confirmation form *)

Lemma digit_char_value (d : Z) :
  0 <= d <= 9 -> Z.of_N (N_of_ascii (digit_char d)) - 48 = d.
Proof.
  intros Hd. unfold digit_char.
  rewrite N_ascii_embedding by lia. lia.
Qed.

Lemma dec_digits_read (fuel : nat) :
  forall (n : Z) (acc : list ascii),
  0 <= n < 10 ^ Z.of_nat fuel -> (0 < fuel)%nat ->
  read_digits 0 (dec_digits fuel n acc) = read_digits n acc.
Proof.
  induction fuel as [|k IH]; intros n acc Hn Hfuel; [lia|].
  simpl dec_digits.
  pose proof (Z.mod_pos_bound n 10 ltac:(lia)) as Hmod.
  pose proof (Z.div_mod n 10 ltac:(lia)) as Hdiv.
  destruct (n / 10 =? 0) eqn:Hq.
  - apply Z.eqb_eq in Hq. simpl. rewrite digit_char_value by lia.
    f_equal. lia.
  - apply Z.eqb_neq in Hq.
    assert (Hqpos : 0 < n / 10).
    { pose proof (Z.div_pos n 10 ltac:(lia) ltac:(lia)). lia. }
    assert (Hk : (0 < k)%nat).
    { destruct k; [|lia]. simpl in Hn. lia. }
    rewrite IH; [| |exact Hk].
    + simpl. rewrite digit_char_value by lia. f_equal. lia.
    + split; [lia|]. apply Z.div_lt_upper_bound; [lia|].
      rewrite Nat2Z.inj_succ, Z.pow_succ_r in Hn by lia. lia.
Qed.

Lemma digits_of_Z_read (n : Z) : 0 <= n -> read_digits 0 (digits_of_Z n) = n.
Proof.
  intros Hn. unfold digits_of_Z. rewrite dec_digits_read; [reflexivity| |lia].
  split; [exact Hn|].
  destruct (Z.eq_dec n 0) as [->|Hne]; [reflexivity|].
  rewrite Nat2Z.inj_succ, Z2Nat.id by apply Z.log2_nonneg.
  pose proof (Z.log2_spec n ltac:(lia)) as [_ Hlt].
  eapply Z.lt_le_trans; [exact Hlt|].
  apply Z.pow_le_mono_l. pose proof (Z.log2_nonneg n). lia.
Qed.

Lemma str_of_int_inj (i j : nat) :
  str_of_int (Z.of_nat i) = str_of_int (Z.of_nat j) -> i = j.
Proof.
  unfold str_of_int.
  replace (Z.of_nat i <? 0) with false by (symmetry; apply Z.ltb_ge; lia).
  replace (Z.of_nat j <? 0) with false by (symmetry; apply Z.ltb_ge; lia).
  intros H.
  apply (f_equal list_ascii_of_string) in H.
  rewrite !list_ascii_of_string_of_list_ascii in H.
  apply (f_equal (read_digits 0)) in H.
  rewrite !digits_of_Z_read in H by lia. lia.
Qed.

Lemma append_inj (p s t : string) : p +:+ s = p +:+ t -> s = t.
Proof.
  induction p as [|c p IH]; [auto|].
  rewrite !append_cons. intros [= H]. auto.
Qed.

Lemma name_key_inj (i j : nat) : name_key i = name_key j -> i = j.
Proof. intros H. apply append_inj in H. now apply str_of_int_inj. Qed.

(** A form holds at least as many fields as it has consecutive column
    names. *)
Lemma names_bounded_by_size (form : gmap string string) (n : nat) :
  (forall i, (i < n)%nat -> is_Some (form !! name_key i)) ->
  (n <= size form)%nat.
Proof.
  intros Hall.
  set (ks := map name_key (seq 0 n)).
  assert (Hnd : NoDup ks).
  { apply NoDup_fmap_2; [|apply NoDup_seq].
    intros i j. apply name_key_inj. }
  assert (Hsub : (list_to_set ks : gset string) ⊆ dom form).
  { intros k Hk. apply elem_of_list_to_set in Hk.
    apply list_elem_of_fmap in Hk as (i & -> & Hi).
    apply elem_of_seq in Hi. apply elem_of_dom, Hall. lia. }
  apply subseteq_size in Hsub.
  rewrite size_list_to_set, size_dom in Hsub by exact Hnd.
  unfold ks in Hsub. rewrite length_map, length_seq in Hsub. exact Hsub.
Qed.

Lemma collect_columns_from (form : gmap string string)
    (columns : list (string * string)) :
  forall (fuel i : nat),
  (length columns < fuel)%nat ->
  (forall j name ty, columns !! j = Some (name, ty) ->
     form !! name_key (i + j) = Some name
     /\ form !! type_key (i + j) = Some ty) ->
  form !! name_key (i + length columns) = None ->
  collect_columns fuel form i = Ok columns.
Proof.
  induction columns as [|[name ty] columns IH]; intros fuel i Hfuel Hget Hend;
    (destruct fuel as [|fuel]; [simpl in Hfuel; lia|]); simpl.
  - fold (name_key i). rewrite Nat.add_0_r in Hend. now rewrite Hend.
  - fold (name_key i) (type_key i).
    destruct (Hget 0%nat name ty eq_refl) as [Hn Ht].
    rewrite Nat.add_0_r in Hn, Ht. rewrite Hn, Ht.
    rewrite (IH fuel (S i)); [reflexivity| | |].
    + simpl in Hfuel. lia.
    + intros j n t Hj. specialize (Hget (S j) n t Hj).
      now rewrite Nat.add_succ_r in Hget.
    + simpl in Hend. now rewrite Nat.add_succ_r in Hend.
Qed.

(** X24: [create_db] works on exactly the columns found in the fields
    numbered 0, 1, 2, ... up to the first missing column name; whatever
    fields the form holds after that gap are ignored.  With a file path
    and a year it then creates the table named after the year. *)
Theorem create_db_reads_numbered_fields (w : world)
    (form : gmap string string) (columns : list (string * string))
    (fp year : string) :
  form !! "filepath" = Some fp -> fp <> "" ->
  form !! "year" = Some year -> year <> "" ->
  columns <> [] ->
  (forall j name ty, columns !! j = Some (name, ty) ->
     form !! name_key j = Some name /\ form !! type_key j = Some ty) ->
  form !! name_key (length columns) = None ->
  create_db form w = create_table (table_name_of year) fp columns w.
Proof.
  intros Hfp Hfpne Hyear Hyne Hcols Hget Hend. unfold create_db.
  rewrite (collect_columns_from form columns (S (size form)) 0).
  - rewrite Hfp, Hyear. unfold truthy.
    apply String.eqb_neq in Hfpne, Hyne. rewrite Hfpne, Hyne.
    rewrite bool_decide_eq_false_2 by exact Hcols. reflexivity.
  - apply Nat.lt_succ_r, names_bounded_by_size.
    intros i Hi. destruct (lookup_lt_is_Some_2 columns i Hi) as [[n t] Hc].
    destruct (Hget i n t Hc) as [Hn _]. now rewrite Hn.
  - exact Hget.
  - exact Hend.
Qed.

Lemma create_db_reads_numbered_fields_witness :
  create_db (<["column_name_7" := "ignored"]> ex_form_duplicate)
    ex_empty_world
  = create_table (table_name_of "2024") "uploads/2024_data.xlsx"
      [("a", INTEGER); ("a", TEXT)] ex_empty_world.
Proof.
  apply (create_db_reads_numbered_fields ex_empty_world
           (<["column_name_7" := "ignored"]> ex_form_duplicate)
           [("a", INTEGER); ("a", TEXT)] "uploads/2024_data.xlsx" "2024").
  - reflexivity.
  - discriminate.
  - reflexivity.
  - discriminate.
  - discriminate.
  - intros [|[|j]] name ty; simpl; intros [= <- <-] || discriminate;
      split; reflexivity.
  - reflexivity.
Defined.

(** ** What a load leaves alone *)

Lemma same_but_rows_refl (t : string) (db : gmap string table) :
  same_but_rows t db db.
Proof. split; auto. Qed.

Lemma same_but_rows_trans (t : string) (a b c : gmap string table) :
  same_but_rows t a b -> same_but_rows t b c -> same_but_rows t a c.
Proof.
  intros [H1 H2] [H3 H4]. split.
  - intros t' Ht. rewrite H3, H1 by exact Ht. reflexivity.
  - congruence.
Qed.

Lemma execute_insert_trace (w w' : world) (t : string) (k : nat)
    (vs : list sql_value) (r : res (list (string * string))) :
  execute (InsertValues t k vs) w = (r, w') ->
  same_but_rows t (current w) (current w').
Proof.
  unfold execute. destruct (faults w (length (log w))).
  { intros [= <- <-]. apply same_but_rows_refl. }
  simpl. destruct (current w !! t) as [tb|] eqn:Ht.
  2:{ intros [= <- <-]. apply same_but_rows_refl. }
  destruct (negb _).
  { intros [= <- <-]. apply same_but_rows_refl. }
  destruct (negb _).
  { intros [= <- <-]. apply same_but_rows_refl. }
  intros [= <- <-]. unfold current at 2. simpl. split.
  - intros t' Hne. now apply lookup_insert_ne.
  - unfold table_info. now rewrite lookup_insert_eq, Ht.
Qed.

Lemma insert_rows_trace (t : string) (names : list string)
    (types : gmap string string) (rows : list (list cell)) :
  forall (c : nat) (w w' : world) (r : res nat),
  insert_rows t names types rows c w = (r, w') ->
  same_but_rows t (current w) (current w')
  /\ exists done last,
       log w' = log w ++ done ++ last
       /\ Forall (fun p => snd p = true) done
       /\ match r with
          | Ok _ => last = []
          | Raise _ => last = [] \/ exists s, last = [(s, false)]
          end.
Proof.
  induction rows as [|row rows IH]; intros c w w' r; simpl.
  - intros [= <- <-]. split; [apply same_but_rows_refl|].
    exists [], []. rewrite app_nil_r. auto.
  - step_unfold.
    destruct (sanitize_row names types 0 row) as [vs|e].
    2:{ intros [= <- <-]. split; [apply same_but_rows_refl|].
        exists [], []. rewrite app_nil_r. auto. }
    destruct (execute (InsertValues t (length names) vs) w) as [r1 w1] eqn:E.
    pose proof (execute_insert_trace _ _ _ _ _ _ E) as Hsame.
    apply execute_insert_frame in E as (_ & _ & _ & _ & _ & Hl).
    destruct r1 as [rs|e].
    + intros H. apply IH in H as (Hsame' & done & last & Hlog & Hok & Hlast).
      split; [eapply same_but_rows_trans; eauto|].
      exists ((InsertValues t (length names) vs, true) :: done), last.
      rewrite Hlog, Hl, <- !app_assoc. repeat split; auto.
    + intros [= <- <-]. split; [exact Hsame|].
      exists [], [(InsertValues t (length names) vs, false)].
      repeat split; eauto.
Qed.

Lemma load_trace (t fp : string) (w : world) :
  same_but_rows t (committed w) (committed (snd (load t fp w)))
  /\ stops_at_failure (new_log w (snd (load t fp w))).
Proof.
  unfold load. step_unfold. simpl.
  destruct (faults w (length (log w))) eqn:Hf.
  - rewrite execute_fault by exact Hf. simpl.
    split; [apply same_but_rows_refl|].
    unfold new_log. simpl. rewrite drop_app_length.
    exists [], [(PragmaTableInfo t, false)]. repeat split; eauto.
  - rewrite execute_pragma by exact Hf. simpl.
    assert (Hone : forall w', log w' = log w ++ [(PragmaTableInfo t, true)] ->
              stops_at_failure (new_log w w')).
    { intros w' Hl. rewrite (new_log_app _ _ _ Hl).
      exists [(PragmaTableInfo t, true)], []. repeat split; auto. }
    destruct (files w !! fp) as [df|] eqn:Hdf; simpl.
    2:{ split; [apply same_but_rows_refl|]. now apply Hone. }
    destruct (negb _); simpl.
    { split; [apply same_but_rows_refl|]. now apply Hone. }
    match goal with
    | |- context [insert_rows ?a ?b ?c ?d ?e ?f] =>
        destruct (insert_rows a b c d e f) as [r1 w1] eqn:E
    end.
    pose proof E as E'.
    apply insert_rows_trace in E as (Hsame & done & last & Hlog & Hok & Hlast).
    apply insert_rows_frame in E' as (Hc & _).
    simpl in *. unfold current at 1 in Hsame. simpl in Hsame.
    assert (Hstop : forall w', log w' = log w1 ->
              (match r1 with Ok _ => True | Raise _ => True end) ->
              stops_at_failure (new_log w w')).
    { intros w' Hl _. unfold new_log. rewrite Hl, Hlog, <- app_assoc.
      rewrite drop_app_length.
      exists ((PragmaTableInfo t, true) :: done), last.
      repeat split; auto. destruct r1; auto. }
    destruct r1 as [n|e]; simpl.
    + split; [exact Hsame|]. now apply Hstop.
    + split; [rewrite Hc; apply same_but_rows_refl|]. now apply Hstop.
Qed.


(** X26: a request of [insert_data] stops at the first statement that
    fails: in the statements it ran, all succeeded except possibly the
    last one. *)
Theorem insert_data_stops_at_first_failure (w : world)
    (t fp : option string) :
  exists done last,
    new_log w (snd (insert_data t fp w)) = done ++ last
    /\ Forall (fun p => snd p = true) done
    /\ (last = [] \/ exists s, last = [(s, false)]).
Proof.
  assert (Hnone : forall w0,
            stops_at_failure (new_log w0 (add_flash MissingArguments w0))).
  { intros w0. unfold new_log. simpl. rewrite drop_all.
    exists [], []. repeat split; auto. }
  unfold insert_data.
  destruct t as [t|], fp as [fp|]; try apply Hnone.
  destruct (truthy (Some t) && truthy (Some fp)); [|apply Hnone].
  apply (load_trace t fp w).
Qed.
